(** * Sentinel SDK: the interception-and-metering pipeline

    A shallow embedding of [sentinel/__init__.py] (the session initialiser
    [init], the interceptor [wrap] with its [_sentinel_wrapper]) and of
    [sentinel/adapters/openai.py] (the pricing table and the cost formula),
    followed by the properties the specification states about them.

    Amounts of money are Python floats: they are embedded as the kernel's
    binary64 numbers, so that every arithmetic step rounds as it does in the
    interpreter.  Token counts are Python ints, embedded as [Z]. *)

From Stdlib Require Import ZArith Lia Bool List Floats.
From Stdlib Require Uint63.
From stdpp Require Import base gmap strings.

Open Scope string_scope.
Open Scope Z_scope.

(** ** Exceptions and results *)

(** An f-string is kept as its literal pieces and the values formatted into
    it; how [str] prints a float is not needed by any property below. *)
Inductive fragment :=
| Lit (s : string)
| FmtFloat (x : float)
| FmtInt (n : Z).

Abbreviation fstring := (list fragment).

(** The exception classes the two modules raise, catch or let through.  All
    of them derive from Python's [Exception].  [HTTPError] is the subclass of
    [RequestException] raised by [raise_for_status]; it carries the status
    code of its response. *)
Inductive exn :=
| ValueError (msg : fstring)
| RuntimeError (msg : fstring)
| BudgetExceededError (msg : fstring)
| KeyError (key : string)
| OverflowError (msg : fstring)
| ZeroDivisionError (msg : fstring)
| NotImplementedError (msg : fstring)
| HTTPError (status_code : Z)
| RequestException (msg : fstring)
| ClientError (msg : fstring).

(** [str(e)] as it is spliced into a message. *)
Definition str_exn (e : exn) : fstring :=
  match e with
  | ValueError m | RuntimeError m | BudgetExceededError m
  | OverflowError m | ZeroDivisionError m
  | NotImplementedError m | RequestException m | ClientError m => m
  | KeyError k => [Lit "'"; Lit k; Lit "'"]
  | HTTPError c => [FmtInt c; Lit " Error"]
  end.

Inductive result (A : Type) :=
| Ok (a : A)
| Raise (e : exn).
Arguments Ok {A} a.
Arguments Raise {A} e.

#[export] Instance result_ret : MRet result := fun A a => Ok a.
#[export] Instance result_bind : MBind result := fun A B f r =>
  match r with
  | Ok a => f a
  | Raise e => Raise e
  end.

(** ** Python's numeric primitives on binary64 *)

Module Py.

(** A Python int read as an (unrounded) binary number. *)
Definition Z2SF (z : Z) : spec_float :=
  match z with
  | Z0 => S754_zero false
  | Zpos p => S754_finite false p 0
  | Zneg p => S754_finite true p 0
  end.

(** The quotient of two ints rounded once to the nearest binary64 number. *)
Definition int_quotient (a b : Z) : float :=
  SF2Prim (SFdiv prec emax (Z2SF a) (Z2SF b)).

(** [a / b] on two ints: true division is correctly rounded, and raises
    when the divisor is zero or the quotient is beyond the largest float. *)
Definition int_truediv (a b : Z) : result float :=
  if b =? 0 then Raise (ZeroDivisionError [Lit "division by zero"])
  else
    let q := int_quotient a b in
    if is_infinity q
    then Raise (OverflowError [Lit "integer division result too large for a float"])
    else Ok q.

(** [x >= y] on two floats. *)
Definition ge (x y : float) : bool := (y <=? x)%float.

(** [n / d] rounded to the nearest integer, ties to the even one
    ([0 <= n], [0 < d]). *)
Definition round_half_even (n d : Z) : Z :=
  let q := n / d in
  let r := n mod d in
  match 2 * r ?= d with
  | Lt => q
  | Gt => q + 1
  | Eq => if Z.even q then q else q + 1
  end.

(** [round(x, 4)] on a float: the exact binary value of [x] is rounded to the
    nearest multiple of [10^-4], ties to even, and that decimal is read back
    as the nearest float.  Infinities and NaN round to themselves, and a
    zero result keeps the sign of [x]. *)
Definition round4 (x : float) : float :=
  match Prim2SF x with
  | S754_finite s m e =>
      if 0 <=? e then x
      else
        match round_half_even (Zpos m * 10000) (2 ^ (- e)) with
        | Zpos k => SF2Prim (SFdiv prec emax (S754_finite s k 0) (Z2SF 10000))
        | _ => if s then neg_zero else zero
        end
  | _ => x
  end.

End Py.

(** ** The adapters ([sentinel/adapters]) *)

(** The response of the wrapped client: a chat completion exposing
    [usage.prompt_tokens], [usage.completion_tokens] and [model]. *)
Record CompletionUsage := {
  prompt_tokens : Z;
  completion_tokens : Z
}.

Record ChatCompletion := {
  usage : CompletionUsage;
  model : string;
  content : string
}.

Record usage_metadata := {
  input_tokens : Z;
  output_tokens : Z;
  um_model : string
}.

(** The dictionary [{"cost": ..., "usage_metadata": {...}}]. *)
Record usage_record := {
  cost : float;
  metadata : usage_metadata
}.

(** The adapter interface: one method from a response to a usage record. *)
Class Adapter := {
  get_usage_and_cost : ChatCompletion -> result usage_record
}.

Module BaseAdapter.

Definition get_usage_and_cost (response : ChatCompletion) : result usage_record :=
  Raise (NotImplementedError
           [Lit "Each adapter must implement the 'get_usage_and_cost' method."]).

Definition adapter : Adapter := Build_Adapter get_usage_and_cost.

End BaseAdapter.

Module OpenAIAdapter.

Record pricing := {
  input : float;
  output : float
}.

(** Pricing per one million tokens. *)
Definition MODEL_PRICING : gmap string pricing :=
  <["gpt-4o" := {| input := 5.00; output := 15.00 |}]>
  (<["gpt-4-turbo" := {| input := 10.00; output := 30.00 |}]>
  (<["gpt-3.5-turbo" := {| input := 0.50; output := 1.50 |}]> ∅)).

Definition usd_to_inr_rate : float := 83.50.

Definition _calculate_openai_cost
    (input_tokens output_tokens : Z) (model_name : string) : result float :=
  let pricing := default {| input := 0; output := 0 |} (MODEL_PRICING !! model_name) in
  in_millions ← Py.int_truediv input_tokens 1000000;
  let input_cost := (in_millions * input pricing)%float in
  out_millions ← Py.int_truediv output_tokens 1000000;
  let output_cost := (out_millions * output pricing)%float in
  let total_cost_usd := (input_cost + output_cost)%float in
  let total_cost_inr := (total_cost_usd * usd_to_inr_rate)%float in
  mret (Py.round4 total_cost_inr).

Definition get_usage_and_cost (response : ChatCompletion) : result usage_record :=
  let usage_data := usage response in
  let model_name := model response in
  let input_tokens := prompt_tokens usage_data in
  let output_tokens := completion_tokens usage_data in
  cost ← _calculate_openai_cost input_tokens output_tokens model_name;
  mret {| cost := cost;
          metadata := {| input_tokens := input_tokens;
                         output_tokens := output_tokens;
                         um_model := model_name |} |}.

Definition adapter : Adapter := Build_Adapter get_usage_and_cost.

End OpenAIAdapter.

(** ** The SDK ([sentinel/__init__.py]) *)

Module Sentinel.

(** *** Global state *)

Record Config := {
  api_key : option string;
  backend_url : string;
  project_id : option string;
  monthly_budget : float;
  current_usage : float
}.

Definition _SENTINEL_CONFIG : Config :=
  {| api_key := None;
     backend_url := "http://127.0.0.1:8000";
     project_id := None;
     monthly_budget := 0;
     current_usage := 0 |}.

(** The arguments a caller passes to the completion method. *)
Record call_args := {
  args : list string;
  kwargs : list (string * string)
}.

(** What the process does to the outside, in order: lines printed, requests
    sent, calls that reach the client's original method, threads started. *)
Inductive event :=
| Printed (line : fstring)
| HttpGet (url : string) (headers : list (string * string)) (timeout : Z)
| OriginalCalled (a : call_args)
| ThreadStarted (usage_data : usage_record).

Record World := {
  config : Config;
  log : list event
}.

Definition initial_world : World := {| config := _SENTINEL_CONFIG; log := [] |}.

(** *** The state-and-exception monad of the module's functions *)

Definition M (A : Type) : Type := World -> result A * World.

#[export] Instance M_ret : MRet M := fun A a w => (Ok a, w).
#[export] Instance M_bind : MBind M := fun A B f m w =>
  match m w with
  | (Ok a, w') => f a w'
  | (Raise e, w') => (Raise e, w')
  end.

Definition raise {A} (e : exn) : M A := fun w => (Raise e, w).

Definition lift {A} (r : result A) : M A := fun w => (r, w).

(** [try: body except Exception as e: handler e]. *)
Definition try_except {A} (body : M A) (handler : exn -> M A) : M A := fun w =>
  match body w with
  | (Ok a, w') => (Ok a, w')
  | (Raise e, w') => handler e w'
  end.

Definition get_config : M Config := fun w => (Ok (config w), w).

Definition put_config (c : Config) : M unit := fun w =>
  (Ok tt, {| config := c; log := log w |}).

Definition emit (ev : event) : M unit := fun w =>
  (Ok tt, {| config := config w; log := log w ++ [ev] |}).

Definition print (line : fstring) : M unit := emit (Printed line).

(** Item assignments on the configuration dictionary. *)
Definition set_api_key (v : option string) (c : Config) : Config :=
  {| api_key := v; backend_url := backend_url c; project_id := project_id c;
     monthly_budget := monthly_budget c; current_usage := current_usage c |}.

Definition set_project_id (v : option string) (c : Config) : Config :=
  {| api_key := api_key c; backend_url := backend_url c; project_id := v;
     monthly_budget := monthly_budget c; current_usage := current_usage c |}.

Definition set_monthly_budget (v : float) (c : Config) : Config :=
  {| api_key := api_key c; backend_url := backend_url c; project_id := project_id c;
     monthly_budget := v; current_usage := current_usage c |}.

Definition set_current_usage (v : float) (c : Config) : Config :=
  {| api_key := api_key c; backend_url := backend_url c; project_id := project_id c;
     monthly_budget := monthly_budget c; current_usage := v |}.

Definition update (f : Config -> Config) : M unit :=
  c ← get_config; put_config (f c).

(** *** The verify endpoint as [requests] shows it *)

(** The JSON object of the verify response; a field is [None] when the key
    is missing from the object. *)
Record verify_body := {
  body_project_id : option string;
  body_monthly_budget : option float;
  body_current_usage : option float
}.

(** A response: its status code and its body, [None] when the body is not
    JSON. *)
Record Response := {
  status_code : Z;
  json_body : option verify_body
}.

(** What one [requests.get] does: it fails before any response (connection
    refused, timeout), or it returns a response. *)
Inductive http_outcome :=
| NoResponse (why : fstring)
| Responded (r : Response).

Definition requests_get (net : http_outcome)
    (url : string) (headers : list (string * string)) (timeout : Z) : M Response :=
  emit (HttpGet url headers timeout);;
  match net with
  | NoResponse why => raise (RequestException why)
  | Responded r => mret r
  end.

(** [response.raise_for_status()]: an error for bad responses (4xx or 5xx). *)
Definition raise_for_status (r : Response) : M unit :=
  if (400 <=? status_code r) && (status_code r <? 600)
  then raise (HTTPError (status_code r))
  else mret tt.

(** [response.json()]; its decoding error is a [RequestException]. *)
Definition json (r : Response) : M verify_body :=
  match json_body r with
  | Some data => mret data
  | None => raise (RequestException [Lit "Expecting value"])
  end.

(** [data[key]]. *)
Definition getitem {A} (field : option A) (key : string) : M A :=
  match field with
  | Some v => mret v
  | None => raise (KeyError key)
  end.

(** Truth value of a string, and of an optional string. *)
Definition truthy (s : string) : bool :=
  match s with
  | EmptyString => false
  | _ => true
  end.

Definition truthy_opt (s : option string) : bool :=
  match s with
  | Some s => truthy s
  | None => false
  end.

(** *** Public functions *)

(** [init(api_key)]; [net] is what the network does with the one request
    the call may send. *)
Definition init (net : http_outcome) (api_key : string) : M unit :=
  if negb (truthy api_key) || negb (String.prefix "api-sentinel_pk_" api_key)
  then raise (ValueError [Lit "A valid Sentinel API key (api-sentinel_pk_...) is required."])
  else
    update (set_api_key (Some api_key));;
    print [Lit "[API - SENTINEL] Verifying key and fetching latest budget..."];;
    try_except
      (let headers := [("X-Sentinel-Key", api_key)] in
       c ← get_config;
       response ← requests_get net (backend_url c +:+ "/keys/verify") headers 5;
       raise_for_status response;;
       data ← json response;
       v ← getitem (body_project_id data) "project_id";
       update (set_project_id (Some v));;
       v ← getitem (body_monthly_budget data) "monthly_budget";
       update (set_monthly_budget v);;
       v ← getitem (body_current_usage data) "current_usage";
       update (set_current_usage v);;
       print [Lit "SENTINEL: Initialization successful. Budget is ready."])
      (fun e =>
         match e with
         | HTTPError status =>
             if status =? 401
             then raise (ValueError
                    [Lit "Invalid Sentinel API key. Please check your key on the dashboard."])
             else raise (RuntimeError
                    [Lit "[API - SENTINEL] Could not connect to backend. Status: ";
                     FmtInt status])
         | RequestException why =>
             raise (RuntimeError
                    (Lit "[API - SENTINEL] Could not connect to backend. Network error: "
                     :: why))
         | _ => raise e
         end).

(** A client: the object whose [chat.completions.create] is replaced. *)
Record Client := {
  chat_completions_create : call_args -> M ChatCompletion
}.

(** A call of the captured original method; the call is entered in the log
    before the method runs. *)
Definition call_original
    (original_method : call_args -> M ChatCompletion) (a : call_args) : M ChatCompletion :=
  emit (OriginalCalled a);; original_method a.

(** [threading.Thread(target=_report_usage_to_backend, args=(usage_data,)).start()] *)
Definition start_report_thread (usage_data : usage_record) : M unit :=
  emit (ThreadStarted usage_data).

Definition _sentinel_wrapper
    (original_method : call_args -> M ChatCompletion) (adapter : Adapter)
    (a : call_args) : M ChatCompletion :=
  c ← get_config;
  if Py.ge (current_usage c) (monthly_budget c)
  then raise (BudgetExceededError
                [Lit "Project has exceeded its budget of ";
                 FmtFloat (monthly_budget c); Lit "."])
  else
    response ← call_original original_method a;
    try_except
      (usage_data ← lift (get_usage_and_cost response);
       let cost := cost usage_data in
       update (fun c => set_current_usage (current_usage c + cost)%float c);;
       start_report_thread usage_data)
      (fun e =>
         print (Lit "SENTINEL WARNING: Could not process usage. Error: " :: str_exn e));;
    mret response.

Definition wrap (client : Client) (adapter : Adapter) : M Client :=
  c ← get_config;
  if negb (truthy_opt (api_key c))
  then raise (RuntimeError
                [Lit "Sentinel SDK has not been initialized. Please call sentinel.init() first."])
  else
    let original_method := chat_completions_create client in
    mret {| chat_completions_create := _sentinel_wrapper original_method adapter |}.

(** The world in which the original method starts: the call is logged. *)
Definition entered (a : call_args) (w : World) : World :=
  {| config := config w; log := log w ++ [OriginalCalled a] |}.

(** *** Observations on the log and runs of calls *)

(** The call counter of a spy on the original method. *)
Fixpoint original_calls (l : list event) : nat :=
  match l with
  | [] => O
  | OriginalCalled _ :: l => S (original_calls l)
  | _ :: l => original_calls l
  end.

(** The number of HTTP requests issued. *)
Fixpoint http_requests (l : list event) : nat :=
  match l with
  | [] => O
  | HttpGet _ _ _ :: l => S (http_requests l)
  | _ :: l => http_requests l
  end.

(** The key passes the format check of [init]. *)
Definition key_format_ok (api_key : string) : bool :=
  truthy api_key && String.prefix "api-sentinel_pk_" api_key.

(** The verify step fails with an HTTP error (a 4xx or 5xx status), with a
    network error (no response), or on a body that is not JSON. *)
Definition verify_fails (net : http_outcome) : bool :=
  match net with
  | NoResponse _ => true
  | Responded r =>
      ((400 <=? status_code r) && (status_code r <? 600))
      || match json_body r with None => true | Some _ => false end
  end.

(** The world once [init] has stored the key, announced the verification
    and sent its request. *)
Definition verify_sent (api_key : string) (w : World) : World :=
  {| config := set_api_key (Some api_key) (config w);
     log := (log w ++
             [Printed [Lit "[API - SENTINEL] Verifying key and fetching latest budget..."]])
            ++ [HttpGet (backend_url (config w) +:+ "/keys/verify")
                        [("X-Sentinel-Key", api_key)] 5] |}.

(** A sequence of [init] attempts, each with what the network did; the
    caller goes on after a failed attempt. *)
Fixpoint run_inits (attempts : list (http_outcome * string)) (w : World) : World :=
  match attempts with
  | [] => w
  | (net, api_key) :: rest => run_inits rest (snd (init net api_key w))
  end.

(** A sequence of invocations of one method; the caller goes on whether an
    invocation returns or raises. *)
Fixpoint run_calls (method : call_args -> M ChatCompletion)
    (calls : list call_args) (w : World) : World :=
  match calls with
  | [] => w
  | a :: rest => run_calls method rest (snd (method a w))
  end.

End Sentinel.

(** ** The cost formula as the specification words it *)

(** [(inputTokens/1e6 * inputPricePerMillion + outputTokens/1e6 *
    outputPricePerMillion) * currencyConversionRate], with the conversion
    rate 83.50, rounded to 4 decimal places once, at the end. *)
Definition spec_cost (inputTokens outputTokens : Z)
    (inputPricePerMillion outputPricePerMillion : float) : result float :=
  input_millions ← Py.int_truediv inputTokens 1000000;
  output_millions ← Py.int_truediv outputTokens 1000000;
  mret (Py.round4 ((input_millions * inputPricePerMillion
                    + output_millions * outputPricePerMillion) * 83.50)%float).

(** ** Concrete instances used to exercise the theorems *)

Module Example.
Import Sentinel.

Definition key : string := "api-sentinel_pk_test".

Definition response : ChatCompletion :=
  {| usage := {| prompt_tokens := 1000; completion_tokens := 500 |};
     model := "gpt-4o";
     content := "Hello" |}.

(** A client whose completion method always answers [response]. *)
Definition client : Client :=
  {| chat_completions_create := fun _ => mret response |}.

(** A client whose completion method always fails. *)
Definition failing_client : Client :=
  {| chat_completions_create := fun _ => raise (ClientError [Lit "rate limit reached"]) |}.

Definition no_args : call_args := {| args := []; kwargs := [] |}.

Definition verified : http_outcome :=
  Responded {| status_code := 200;
               json_body := Some {| body_project_id := Some "proj-1";
                                    body_monthly_budget := Some 100%float;
                                    body_current_usage := Some 1.5%float |} |}.

(** The world after a successful [init]. *)
Definition ready : World := snd (init verified key initial_world).

(** A world whose budget is used up. *)
Definition exhausted : World :=
  {| config := set_current_usage 100 (config ready); log := log ready |}.

End Example.

(** *** The usage reporter, run on its own thread *)

Module Reporter.
Import Sentinel.

(** What the reporting thread does to the outside, in order. *)
Inductive report_event :=
| HttpPost (url : string) (json : usage_record)
           (headers : list (string * option string)) (timeout : Z)
| Printed (line : fstring).

(** The thread's own exception monad over its trace. *)
Definition T (A : Type) : Type := list report_event -> result A * list report_event.

#[export] Instance T_ret : MRet T := fun A a t => (Ok a, t).
#[export] Instance T_bind : MBind T := fun A B f m t =>
  match m t with
  | (Ok a, t') => f a t'
  | (Raise e, t') => (Raise e, t')
  end.

Definition raise {A} (e : exn) : T A := fun t => (Raise e, t).

Definition emit (ev : report_event) : T unit := fun t => (Ok tt, (t ++ [ev])%list).

Definition print (line : fstring) : T unit := emit (Printed line).

(** [isinstance(e, requests.RequestException)]. *)
Definition is_RequestException (e : exn) : bool :=
  match e with
  | HTTPError _ | RequestException _ => true
  | _ => false
  end.

(** [try: body except requests.RequestException as e: handler e]. *)
Definition try_except_RequestException {A} (body : T A) (handler : exn -> T A) : T A :=
  fun t =>
    match body t with
    | (Ok a, t') => (Ok a, t')
    | (Raise e, t') => if is_RequestException e then handler e t' else (Raise e, t')
    end.

Definition requests_post (net : http_outcome) (url : string) (json : usage_record)
    (headers : list (string * option string)) (timeout : Z) : T Response :=
  emit (HttpPost url json headers timeout);;
  match net with
  | NoResponse why => raise (RequestException why)
  | Responded r => mret r
  end.

(** [response.raise_for_status()]: an error for bad responses (4xx or 5xx). *)
Definition raise_for_status (r : Response) : T unit :=
  if (400 <=? status_code r) && (status_code r <? 600)
  then raise (HTTPError (status_code r))
  else mret tt.

(** [_report_usage_to_backend(usage_data)]; [c] is the configuration the
    thread reads and [net] what the network does with its one request. *)
Definition _report_usage_to_backend
    (net : http_outcome) (c : Config) (usage_data : usage_record) : T unit :=
  try_except_RequestException
    (let headers := [("X-Sentinel-Key", api_key c)] in
     response ← requests_post net (backend_url c +:+ "/v1/usage") usage_data headers 5;
     raise_for_status response)
    (fun e =>
       print (Lit "SENTINEL WARNING: Could not report usage to backend. Error: "
              :: str_exn e)).

(** The report fails: no response, or a 4xx or 5xx status. *)
Definition report_fails (net : http_outcome) : bool :=
  match net with
  | NoResponse _ => true
  | Responded r => (400 <=? status_code r) && (status_code r <? 600)
  end.

End Reporter.

(** *** Further observations on sessions *)

(** An [init] attempt that fails at the format check or at the verify step. *)
Definition attempt_fails (attempt : Sentinel.http_outcome * string) : bool :=
  negb (Sentinel.key_format_ok (snd attempt)) || Sentinel.verify_fails (fst attempt).

(** The configuration with [current_usage] set aside. *)
Definition session (c : Sentinel.Config) : option string * string * option string * float :=
  (Sentinel.api_key c, Sentinel.backend_url c, Sentinel.project_id c, Sentinel.monthly_budget c).

(** ** Classes of binary64 values *)

(** The sign of a float; NaN has none. *)
Definition has_sign (s : bool) (f : spec_float) : Prop :=
  match f with
  | S754_zero s' | S754_infinity s' | S754_finite s' _ _ => s' = s
  | S754_nan => False
  end.

(** Zero (of either sign), a positive number or plus infinity. *)
Definition sf_nonneg (f : spec_float) : Prop :=
  match f with
  | S754_zero _ => True
  | S754_infinity s | S754_finite s _ _ => s = false
  | S754_nan => False
  end.

(** An ordinary amount: a number above minus infinity (so not NaN). *)
Definition sf_above (f : spec_float) : Prop :=
  match f with
  | S754_zero _ | S754_finite _ _ _ => True
  | S754_infinity s => s = false
  | S754_nan => False
  end.

Definition sf_finite (f : spec_float) : Prop :=
  match f with
  | S754_zero _ | S754_finite _ _ _ => True
  | _ => False
  end.

Definition sf_zero (f : spec_float) : Prop :=
  match f with
  | S754_zero _ => True
  | _ => False
  end.

Definition Zsign (z : Z) : bool :=
  match z with
  | Zneg _ => true
  | _ => false
  end.

(** [new] is not below [old]: either [old <= new], or [new] is NaN (which
    is below nothing). *)
Definition not_lowered (old new : float) : bool :=
  is_nan new || (old <=? new)%float.

Import Sentinel.

(** ** Binary64 rounding: signs and order *)

Section IterPos.
Context {A : Type} (f : A -> A) (P : Z -> A -> Prop).
Hypothesis step : forall j x, 0 <= j -> P j x -> P (j + 1) (f x).

Lemma iter_pos_steps (p : positive) :
  forall j x, 0 <= j -> P j x -> P (j + Zpos p) (SpecFloat.iter_pos f p x).
Proof using step.
  induction p as [p IH | p IH | ]; intros j x Hj Hx; simpl.
  - replace (j + Zpos p~1) with (((j + 1) + Zpos p) + Zpos p) by lia.
    apply IH; [lia|]. apply IH; [lia|]. apply step; auto.
  - replace (j + Zpos p~0) with ((j + Zpos p) + Zpos p) by lia.
    apply IH; [lia|]. apply IH; auto.
  - apply step; auto.
Qed.
End IterPos.

Lemma shr_1_spec (mrs : shr_record) :
  0 <= shr_m mrs ->
  shr_m (shr_1 mrs) = shr_m mrs / 2
  /\ shr_r (shr_1 mrs) = Z.odd (shr_m mrs)
  /\ shr_s (shr_1 mrs) = shr_r mrs || shr_s mrs.
Proof.
  destruct mrs as [m r s]; simpl. intros Hm.
  rewrite <- Z.div2_div.
  destruct m as [|[p|p|]|p]; simpl; try lia; repeat split; reflexivity.
Qed.

Lemma mod_pow2_succ (m j : Z) :
  0 <= m -> 0 <= j -> m mod 2 ^ (j + 1) = 0 ->
  m mod 2 ^ j = 0 /\ Z.odd (m / 2 ^ j) = false.
Proof.
  intros Hm Hj H.
  assert (Hp : 0 < 2 ^ j) by (apply Z.pow_pos_nonneg; lia).
  rewrite Z.pow_add_r, Z.pow_1_r in H by lia.
  rewrite Z.rem_mul_r in H by lia.
  pose proof (Z.mod_pos_bound m (2 ^ j) Hp) as B1.
  pose proof (Z.mod_pos_bound (m / 2 ^ j) 2 ltac:(lia)) as B2.
  assert (E1 : m mod 2 ^ j = 0) by nia.
  assert (E2 : (m / 2 ^ j) mod 2 = 0) by nia.
  split; [assumption|].
  rewrite Zmod_odd in E2. destruct (Z.odd (m / 2 ^ j)); [discriminate | reflexivity].
Qed.

Lemma iter_shr_1_spec (m0 : Z) (p : positive) :
  0 <= m0 ->
  let mrs := SpecFloat.iter_pos shr_1 p (Build_shr_record m0 false false) in
  shr_m mrs = m0 / 2 ^ Zpos p
  /\ (m0 mod 2 ^ Zpos p = 0 -> shr_r mrs = false /\ shr_s mrs = false).
Proof.
  intros Hm0.
  pose (P := fun (j : Z) (mrs : shr_record) =>
    shr_m mrs = m0 / 2 ^ j
    /\ (m0 mod 2 ^ j = 0 -> shr_r mrs = false /\ shr_s mrs = false)).
  change (P (Zpos p) (SpecFloat.iter_pos shr_1 p (Build_shr_record m0 false false))).
  replace (Zpos p) with (0 + Zpos p) by lia.
  apply (iter_pos_steps shr_1 P).
  - intros j x Hj [Hx1 Hx2]. unfold P.
    assert (Hp : 0 < 2 ^ j) by (apply Z.pow_pos_nonneg; lia).
    assert (0 <= shr_m x) by (rewrite Hx1; apply Z.div_pos; lia).
    destruct (shr_1_spec x) as (E1 & E2 & E3); [assumption|].
    split.
    + rewrite E1, Hx1, Z.pow_add_r, Z.pow_1_r by lia.
      rewrite Z.div_div by lia. reflexivity.
    + intros Hmod. apply mod_pow2_succ in Hmod as [Hmod Hodd]; try lia.
      destruct (Hx2 Hmod) as [Hr Hs]. rewrite E2, E3, Hr, Hs, Hx1, Hodd. auto.
  - lia.
  - unfold P. simpl. rewrite Z.div_1_r, Z.mod_1_r. auto.
Qed.

Lemma fexp_eq (x : Z) : fexp prec emax x = Z.max (x - 53) (-1074).
Proof. reflexivity. Qed.

Lemma digits2_pos_size (p : positive) : digits2_pos p = Pos.size p.
Proof. induction p; simpl; congruence. Qed.

Lemma Zdigits2_log2 (m : Z) : 0 < m -> Zdigits2 m = Z.log2 m + 1.
Proof.
  destruct m as [|p|p]; try lia. intros _. simpl.
  rewrite digits2_pos_size.
  destruct p; simpl; lia.
Qed.

Lemma Zdigits2_bounds (m : Z) :
  0 < m -> 2 ^ (Zdigits2 m - 1) <= m < 2 ^ Zdigits2 m.
Proof.
  intros Hm. rewrite Zdigits2_log2 by assumption.
  replace (Z.log2 m + 1 - 1) with (Z.log2 m) by lia.
  apply Z.log2_spec. assumption.
Qed.

Lemma Zdigits2_pos (m : Z) : 0 < m -> 0 < Zdigits2 m.
Proof.
  intros Hm. rewrite Zdigits2_log2 by assumption.
  pose proof (Z.log2_nonneg m). lia.
Qed.

Lemma Zdigits2_ge (m d : Z) : 0 < m -> 2 ^ (d - 1) <= m -> d <= Zdigits2 m.
Proof.
  intros Hm H.
  destruct (Z_lt_le_dec (Zdigits2 m) d) as [Hlt|]; [|assumption].
  exfalso. pose proof (Zdigits2_bounds m Hm) as [_ Hu].
  pose proof (Zdigits2_pos m Hm).
  assert (2 ^ Zdigits2 m <= 2 ^ (d - 1)) by (apply Z.pow_le_mono_r; lia).
  lia.
Qed.

Lemma Zdigits2_le (m d : Z) : 0 < m -> 0 <= d -> m < 2 ^ d -> Zdigits2 m <= d.
Proof.
  intros Hm Hd H.
  destruct (Z_lt_le_dec d (Zdigits2 m)) as [Hlt|]; [|assumption].
  exfalso. pose proof (Zdigits2_bounds m Hm) as [Hl _].
  assert (2 ^ d <= 2 ^ (Zdigits2 m - 1)) by (apply Z.pow_le_mono_r; lia).
  lia.
Qed.

(** The first step of rounding: the mantissa is shifted right until its
    exponent is the one the format gives to its magnitude. *)
Lemma shr_fexp_exact (m e : Z) (mrs : shr_record) (e' : Z) :
  0 <= m ->
  shr_fexp prec emax m e loc_Exact = (mrs, e') ->
  let k := fexp prec emax (Zdigits2 m + e) - e in
  (k <= 0 /\ mrs = Build_shr_record m false false /\ e' = e)
  \/ (0 < k /\ shr_m mrs = m / 2 ^ k /\ e' = e + k
      /\ (m mod 2 ^ k = 0 -> shr_r mrs = false /\ shr_s mrs = false)).
Proof.
  intros Hm. unfold shr_fexp, shr. simpl shr_record_of_loc.
  destruct (fexp prec emax (Zdigits2 m + e) - e) as [|p|p] eqn:Hk; intros H; inversion H; subst; simpl.
  - left. repeat split; lia.
  - right. destruct (iter_shr_1_spec m p Hm) as [E1 E2].
    repeat split; try lia; try assumption; apply E2; assumption.
  - left. repeat split; lia.
Qed.

Lemma round_nearest_even_bounds (m : Z) (l : location) :
  m <= round_nearest_even m l <= m + 1.
Proof.
  destruct l as [|[]]; simpl; try lia.
  destruct (Z.even m); lia.
Qed.

Lemma round_nearest_even_exact (mrs : shr_record) :
  shr_r mrs = false -> shr_s mrs = false ->
  round_nearest_even (shr_m mrs) (loc_of_shr_record mrs) = shr_m mrs.
Proof. destruct mrs as [m r s]; simpl. intros -> ->. reflexivity. Qed.

(** Shifting keeps a mantissa non-negative, whatever the location. *)
Lemma shr_nonneg (mrs : shr_record) (e n : Z) :
  0 <= shr_m mrs -> 0 <= shr_m (fst (shr mrs e n)).
Proof.
  intros H. unfold shr. destruct n as [|p|p]; simpl; try assumption.
  pose (P := fun (_ : Z) (x : shr_record) => 0 <= shr_m x).
  change (P (0 + Zpos p) (SpecFloat.iter_pos shr_1 p mrs)).
  apply (iter_pos_steps shr_1 P); try assumption; try lia.
  intros j x _ Hx. unfold P in *.
  destruct (shr_1_spec x Hx) as [-> _]. apply Z.div_pos; lia.
Qed.

Lemma shr_fexp_nonneg (m e : Z) (l : location) :
  0 <= m -> 0 <= shr_m (fst (shr_fexp prec emax m e l)).
Proof.
  intros H. unfold shr_fexp. apply shr_nonneg.
  destruct l as [|[]]; assumption.
Qed.

Lemma binary_round_aux_sign (s : bool) (m e : Z) (l : location) :
  0 <= m -> has_sign s (binary_round_aux prec emax s m e l).
Proof.
  intros Hm. unfold binary_round_aux.
  pose proof (shr_fexp_nonneg m e l Hm) as H1.
  destruct (shr_fexp prec emax m e l) as [mrs1 e1]. simpl in H1.
  pose proof (round_nearest_even_bounds (shr_m mrs1) (loc_of_shr_record mrs1)) as Hr.
  pose proof (shr_fexp_nonneg (round_nearest_even (shr_m mrs1) (loc_of_shr_record mrs1))
                e1 loc_Exact ltac:(lia)) as H2.
  destruct (shr_fexp prec emax _ e1 loc_Exact) as [mrs2 e2]. simpl in H2.
  destruct (shr_m mrs2) as [|p|p]; simpl; try lia; try reflexivity.
  destruct (e2 <=? emax - prec); reflexivity.
Qed.

Lemma binary_round_sign (s : bool) (m : positive) (e : Z) :
  has_sign s (binary_round prec emax s m e).
Proof.
  unfold binary_round. destruct (shl_align m e _) as [mz ez].
  apply binary_round_aux_sign. lia.
Qed.

Lemma pow2_pos (k : Z) : 0 <= k -> 0 < 2 ^ k.
Proof. intros. apply Z.pow_pos_nonneg; lia. Qed.

Lemma Zdigits2_mul_pow2 (m k : Z) :
  0 < m -> 0 <= k -> Zdigits2 (m * 2 ^ k) = Zdigits2 m + k.
Proof.
  intros Hm Hk. pose proof (pow2_pos k Hk).
  rewrite !Zdigits2_log2 by nia.
  rewrite Z.log2_mul_pow2 by lia. lia.
Qed.

Lemma Pos_iter_xO (m d : positive) : Zpos (Pos.iter xO m d) = Zpos m * 2 ^ Zpos d.
Proof.
  induction d as [|d IH] using Pos.peano_ind.
  - simpl. lia.
  - rewrite Pos.iter_succ, Pos2Z.inj_succ, Z.pow_succ_r by lia.
    rewrite Pos2Z.inj_xO, IH. lia.
Qed.

Lemma canonical_fexp (m : positive) (e : Z) :
  canonical_mantissa prec emax m e = true ->
  Z.max (Zdigits2 (Zpos m) + e - 53) (-1074) = e.
Proof.
  unfold canonical_mantissa. intros H. apply Z.eqb_eq in H.
  rewrite fexp_eq in H. exact H.
Qed.

(** Rounding a magnitude that is at least that of a representable number
    gives at least that number. *)
Lemma binary_round_aux_ge (s : bool) (M : positive) (ez : Z) (mu : positive) (eu : Z) :
  canonical_mantissa prec emax mu eu = true ->
  ez <= eu ->
  Zpos mu * 2 ^ (eu - ez) <= Zpos M ->
  match binary_round_aux prec emax s (Zpos M) ez loc_Exact with
  | S754_finite s' m' e' => s' = s /\ (eu < e' \/ (e' = eu /\ (mu <= m')%positive))
  | S754_infinity s' => s' = s
  | _ => False
  end.
Proof.
  intros Hcan Hez HM.
  apply canonical_fexp in Hcan.
  pose proof (pow2_pos (eu - ez) ltac:(lia)) as Hpow.
  pose proof (Zdigits2_bounds (Zpos mu) ltac:(lia)) as [HuL HuU].
  pose proof (Zdigits2_pos (Zpos mu) ltac:(lia)) as HdU.
  pose proof (Zdigits2_bounds (Zpos M) ltac:(lia)) as [HML HMU].
  assert (HdM : Zdigits2 (Zpos mu) + (eu - ez) <= Zdigits2 (Zpos M)).
  { apply Zdigits2_ge; [lia|].
    replace (Zdigits2 (Zpos mu) + (eu - ez) - 1)
      with ((Zdigits2 (Zpos mu) - 1) + (eu - ez)) by lia.
    rewrite Z.pow_add_r by lia. nia. }
  unfold binary_round_aux.
  destruct (shr_fexp prec emax (Zpos M) ez loc_Exact) as [mrs1 e1] eqn:E1.
  apply shr_fexp_exact in E1; [|lia]. rewrite fexp_eq in E1.
  pose proof (round_nearest_even_bounds (shr_m mrs1) (loc_of_shr_record mrs1)) as Hm2.
  set (m2 := round_nearest_even (shr_m mrs1) (loc_of_shr_record mrs1)) in *.
  assert (Hfirst : eu <= e1 /\ -1074 <= e1 /\ 1 <= shr_m mrs1
                   /\ (e1 = eu -> Zpos mu <= shr_m mrs1)).
  { destruct E1 as [(Hk & -> & ->) | (Hk & Hm1 & -> & _)].
    - simpl. repeat split; try lia.
      intros ->. replace (eu - eu) with 0 in HM by lia. lia.
    - set (k := Z.max (Zdigits2 (Zpos M) + ez - 53) (-1074) - ez) in *.
      pose proof (pow2_pos k ltac:(lia)) as Hpk.
      repeat split; try lia.
      + rewrite Hm1. apply Z.div_le_lower_bound; [lia|].
        assert (2 ^ k <= 2 ^ (Zdigits2 (Zpos M) - 1)) by (apply Z.pow_le_mono_r; lia).
        lia.
      + intros He. rewrite Hm1. assert (k = eu - ez) as -> by lia.
        apply Z.div_le_lower_bound; lia. }
  destruct Hfirst as (He1 & He1min & Hm1 & Hm1u).
  destruct (shr_fexp prec emax m2 e1 loc_Exact) as [mrs2 e2] eqn:E2.
  apply shr_fexp_exact in E2; [|lia]. rewrite fexp_eq in E2.
  assert (Hfinal : 1 <= shr_m mrs2
                   /\ (eu < e2 \/ (e2 = eu /\ Zpos mu <= shr_m mrs2))).
  { destruct E2 as [(Hk & -> & ->) | (Hk & Hm3 & -> & _)].
    - simpl. split; [lia|].
      destruct (Z.eq_dec e1 eu) as [E|]; [right | left]; lia.
    - set (k2 := Z.max (Zdigits2 m2 + e1 - 53) (-1074) - e1) in *.
      pose proof (pow2_pos k2 ltac:(lia)) as Hpk.
      pose proof (Zdigits2_bounds m2 ltac:(lia)) as [HL HU].
      split; [|lia].
      rewrite Hm3. apply Z.div_le_lower_bound; [lia|].
      assert (2 ^ k2 <= 2 ^ (Zdigits2 m2 - 1)) by (apply Z.pow_le_mono_r; lia).
      lia. }
  destruct Hfinal as [Hpos Hcmp].
  destruct (shr_m mrs2) as [|m3|m3]; try lia.
  destruct (e2 <=? emax - prec); [|reflexivity].
  split; [reflexivity|]. lia.
Qed.

(** Rounding a magnitude that is at most that of a representable number
    gives at most that number. *)
Lemma binary_round_aux_le (s : bool) (M : positive) (ez : Z) (mu : positive) (eu : Z) :
  canonical_mantissa prec emax mu eu = true ->
  eu <= 971 ->
  ez <= eu ->
  ez <= Z.max (Zdigits2 (Zpos M) + ez - 53) (-1074) ->
  Zpos M <= Zpos mu * 2 ^ (eu - ez) ->
  match binary_round_aux prec emax s (Zpos M) ez loc_Exact with
  | S754_finite s' m' e' => s' = s /\ (e' < eu \/ (e' = eu /\ (m' <= mu)%positive))
  | S754_zero s' => s' = s
  | _ => False
  end.
Proof.
  intros Hcan Hmax Hez Hfull HM.
  apply canonical_fexp in Hcan.
  pose proof (pow2_pos (eu - ez) ltac:(lia)) as Hpow.
  pose proof (Zdigits2_bounds (Zpos mu) ltac:(lia)) as [HuL HuU].
  pose proof (Zdigits2_pos (Zpos mu) ltac:(lia)) as HdU.
  pose proof (Zdigits2_bounds (Zpos M) ltac:(lia)) as [HML HMU].
  pose proof (Zdigits2_pos (Zpos M) ltac:(lia)) as HdM0.
  assert (HdM : Zdigits2 (Zpos M) <= Zdigits2 (Zpos mu) + (eu - ez)).
  { apply Zdigits2_le; [lia|lia|].
    rewrite Z.pow_add_r by lia. nia. }
  assert (Hmu53 : Zpos mu < 2 ^ 53).
  { assert (2 ^ Zdigits2 (Zpos mu) <= 2 ^ 53) by (apply Z.pow_le_mono_r; lia). lia. }
  unfold binary_round_aux.
  destruct (shr_fexp prec emax (Zpos M) ez loc_Exact) as [mrs1 e1] eqn:E1.
  pose proof E1 as E1'.
  apply shr_fexp_exact in E1; [|lia]. rewrite fexp_eq in E1.
  pose proof (round_nearest_even_bounds (shr_m mrs1) (loc_of_shr_record mrs1)) as Hm2.
  assert (Hfirst : -1074 <= e1 <= eu
                   /\ 0 <= round_nearest_even (shr_m mrs1) (loc_of_shr_record mrs1) <= 2 ^ 53
                   /\ (e1 = eu ->
                       round_nearest_even (shr_m mrs1) (loc_of_shr_record mrs1) <= Zpos mu)).
  { destruct E1 as [(Hk & -> & ->) | (Hk & Hm1 & -> & Hex)].
    - simpl. repeat split; try lia.
      + assert (Zdigits2 (Zpos M) <= 53) by lia.
        assert (2 ^ Zdigits2 (Zpos M) <= 2 ^ 53) by (apply Z.pow_le_mono_r; lia). lia.
      + intros ->. replace (eu - eu) with 0 in HM by lia. lia.
    - set (k := Z.max (Zdigits2 (Zpos M) + ez - 53) (-1074) - ez) in *.
      pose proof (pow2_pos k ltac:(lia)) as Hpk.
      assert (H0 : 0 <= shr_m mrs1) by (rewrite Hm1; apply Z.div_pos; lia).
      assert (H53 : shr_m mrs1 < 2 ^ 53).
      { rewrite Hm1. apply Z.div_lt_upper_bound; [lia|].
        destruct (Z_le_gt_dec 53 (Zdigits2 (Zpos M))).
        - assert (2 ^ (Zdigits2 (Zpos M) - 53) <= 2 ^ k) by (apply Z.pow_le_mono_r; lia).
          replace (Zdigits2 (Zpos M)) with ((Zdigits2 (Zpos M) - 53) + 53) in HMU at 1 by lia.
          rewrite Z.pow_add_r in HMU by lia. nia.
        - assert (2 ^ Zdigits2 (Zpos M) <= 2 ^ 53) by (apply Z.pow_le_mono_r; lia).
          nia. }
      repeat split; try lia.
      intros He. assert (k = eu - ez) as Ek by lia.
      destruct (Z.eq_dec (Zpos M mod 2 ^ k) 0) as [Hmod|Hmod].
      + destruct (Hex Hmod) as [Hr Hs].
        rewrite round_nearest_even_exact by assumption.
        rewrite Hm1, Ek. apply Z.div_le_upper_bound; lia.
      + assert (Zpos M <> Zpos mu * 2 ^ k).
        { intros Heq. apply Hmod. rewrite Heq. apply Z.mod_mul. lia. }
        assert (shr_m mrs1 < Zpos mu).
        { rewrite Hm1, Ek. apply Z.div_lt_upper_bound; [lia|]. rewrite Ek in *. lia. }
        lia. }
  destruct Hfirst as (He1 & Hm2b & Hm2u).
  remember (round_nearest_even (shr_m mrs1) (loc_of_shr_record mrs1)) as m2 eqn:Hm2def.
  clear Hm2def.
  destruct (shr_fexp prec emax m2 e1 loc_Exact) as [mrs2 e2] eqn:E2.
  apply shr_fexp_exact in E2; [|lia]. rewrite fexp_eq in E2.
  assert (Hfinal : 0 <= shr_m mrs2 /\ e2 <= 971
                   /\ (shr_m mrs2 = 0 \/ e2 < eu \/ (e2 = eu /\ shr_m mrs2 <= Zpos mu))).
  { destruct E2 as [(Hk & -> & ->) | (Hk & Hm3 & -> & _)].
    - simpl. repeat split; lia.
    - set (k2 := Z.max (Zdigits2 m2 + e1 - 53) (-1074) - e1) in *.
      assert (Hm2pos : 0 < m2).
      { destruct (Z.eq_dec m2 0) as [E0|]; [|lia].
        exfalso. unfold k2 in Hk. rewrite E0 in Hk. simpl Zdigits2 in Hk. lia. }
      assert (Hd2 : Zdigits2 m2 <= 54).
      { apply Zdigits2_le; lia. }
      assert (Hd2' : Zdigits2 m2 = 54) by lia.
      assert (Hk2 : k2 = 1) by lia.
      assert (Em2 : m2 = 2 ^ 53).
      { pose proof (Zdigits2_bounds m2 Hm2pos) as [HL _]. rewrite Hd2' in HL.
        change (2 ^ (54 - 1)) with (2 ^ 53) in HL. lia. }
      assert (Hm3' : shr_m mrs2 = 2 ^ 52).
      { rewrite Hm3, Hk2, Em2. reflexivity. }
      assert (e1 < eu).
      { destruct (Z.eq_dec e1 eu) as [E|]; [|lia]. specialize (Hm2u E). lia. }
      repeat split; try lia.
      right. destruct (Z.eq_dec (e1 + k2) eu) as [E|]; [right | left; lia].
      split; [assumption|].
      rewrite Hm3'.
      assert (Zdigits2 (Zpos mu) = 53) by lia.
      replace (Zdigits2 (Zpos mu) - 1) with 52 in HuL by lia. lia. }
  destruct Hfinal as (Hpos & Hover & Hcmp).
  destruct (shr_m mrs2) as [|m3|m3]; try lia; [reflexivity|].
  replace (e2 <=? emax - prec) with true
    by (symmetry; apply Z.leb_le; change (emax - prec) with 971; lia).
  split; [reflexivity|]. lia.
Qed.

Lemma binary_round_ge (s : bool) (M : positive) (ez : Z) (mu : positive) (eu : Z) :
  canonical_mantissa prec emax mu eu = true ->
  ez <= eu ->
  Zpos mu * 2 ^ (eu - ez) <= Zpos M ->
  match binary_round prec emax s M ez with
  | S754_finite s' m' e' => s' = s /\ (eu < e' \/ (e' = eu /\ (mu <= m')%positive))
  | S754_infinity s' => s' = s
  | _ => False
  end.
Proof.
  intros Hcan Hez HM. unfold binary_round, shl_align.
  rewrite fexp_eq. change (Zpos (digits2_pos M)) with (Zdigits2 (Zpos M)).
  assert (Hnoshift : 0 <= Z.max (Zdigits2 (Zpos M) + ez - 53) (-1074) - ez).
  { pose proof (canonical_fexp _ _ Hcan) as Hc.
    pose proof (pow2_pos (eu - ez) ltac:(lia)) as Hpow.
    pose proof (Zdigits2_bounds (Zpos mu) ltac:(lia)) as [HuL HuU].
    pose proof (Zdigits2_pos (Zpos mu) ltac:(lia)) as HdU.
    assert (Zdigits2 (Zpos mu) + (eu - ez) <= Zdigits2 (Zpos M)).
    { apply Zdigits2_ge; [lia|].
      replace (Zdigits2 (Zpos mu) + (eu - ez) - 1)
        with ((Zdigits2 (Zpos mu) - 1) + (eu - ez)) by lia.
      rewrite Z.pow_add_r by lia. nia. }
    lia. }
  destruct (Z.max (Zdigits2 (Zpos M) + ez - 53) (-1074) - ez) as [|d|d]; try lia;
    apply binary_round_aux_ge; assumption.
Qed.

Lemma binary_round_le (s : bool) (M : positive) (ez : Z) (mu : positive) (eu : Z) :
  canonical_mantissa prec emax mu eu = true ->
  eu <= 971 ->
  ez <= eu ->
  Zpos M <= Zpos mu * 2 ^ (eu - ez) ->
  match binary_round prec emax s M ez with
  | S754_finite s' m' e' => s' = s /\ (e' < eu \/ (e' = eu /\ (m' <= mu)%positive))
  | S754_zero s' => s' = s
  | _ => False
  end.
Proof.
  intros Hcan Hmax Hez HM. unfold binary_round, shl_align.
  rewrite fexp_eq. change (Zpos (digits2_pos M)) with (Zdigits2 (Zpos M)).
  destruct (Z.max (Zdigits2 (Zpos M) + ez - 53) (-1074) - ez) as [|d|d] eqn:Hd.
  - apply binary_round_aux_le; try assumption; lia.
  - apply binary_round_aux_le; try assumption; lia.
  - set (f := Z.max (Zdigits2 (Zpos M) + ez - 53) (-1074)) in *.
    assert (Ed : ez - f = Zpos d) by lia.
    pose proof (pow2_pos (Zpos d) ltac:(lia)) as Hpd.
    pose proof (pow2_pos (eu - ez) ltac:(lia)) as Hpe.
    apply binary_round_aux_le; try assumption; try lia.
    + rewrite Pos_iter_xO, Zdigits2_mul_pow2 by lia. lia.
    + rewrite Pos_iter_xO.
      replace (eu - f) with ((eu - ez) + Zpos d) by lia.
      rewrite Z.pow_add_r by lia. nia.
Qed.

Lemma has_sign_nonneg (f : spec_float) : has_sign false f -> sf_nonneg f.
Proof. destruct f; simpl; auto. Qed.

Lemma shl_align_fst (m : positive) (e ez : Z) :
  ez <= e -> Zpos (fst (shl_align m e ez)) = Zpos m * 2 ^ (e - ez).
Proof.
  intros H. unfold shl_align.
  destruct (ez - e) as [|d|d] eqn:E; simpl.
  - replace (e - ez) with 0 by lia. lia.
  - lia.
  - rewrite Pos_iter_xO. replace (e - ez) with (Zpos d) by lia. reflexivity.
Qed.

Lemma SFcompare_antisym (x y : spec_float) :
  SFcompare y x = option_map CompOpp (SFcompare x y).
Proof.
  destruct x as [[]|[]| |[] mx ex], y as [[]|[]| |[] my ey]; simpl; try reflexivity;
    change (Pos.compare_cont Eq) with Pos.compare;
    rewrite (Z.compare_antisym ex ey), (Pos.compare_antisym mx my);
    destruct (ex ?= ey); simpl; try reflexivity.
Qed.

Lemma SFleb_not_SFltb (x y : spec_float) :
  SFleb x y = true -> SFltb y x = false.
Proof.
  unfold SFleb, SFltb. rewrite (SFcompare_antisym x y).
  destruct (SFcompare x y) as [[]|]; simpl; congruence.
Qed.

Lemma SFltb_not_SFleb (x y : spec_float) :
  SFltb x y = true -> SFleb y x = false.
Proof.
  unfold SFleb, SFltb. rewrite (SFcompare_antisym x y).
  destruct (SFcompare x y) as [[]|]; simpl; congruence.
Qed.

Lemma SFcompare_refl (x : spec_float) : x <> S754_nan -> SFcompare x x = Some Eq.
Proof.
  destruct x as [[]|[]| |[] m e]; simpl; try congruence; intros _;
    rewrite Z.compare_refl; try rewrite Pos.compare_cont_refl; reflexivity.
Qed.

Lemma SFleb_refl (x : spec_float) : x <> S754_nan -> SFleb x x = true.
Proof. intros H. unfold SFleb. rewrite SFcompare_refl by assumption. reflexivity. Qed.

Lemma SFleb_finite_pos (mu m' : positive) (eu e' : Z) :
  eu < e' \/ (e' = eu /\ (mu <= m')%positive) ->
  SFleb (S754_finite false mu eu) (S754_finite false m' e') = true.
Proof.
  intros H. unfold SFleb, SFcompare.
  destruct (Z.compare_spec eu e'); try lia; try reflexivity.
  change (Pos.compare_cont Eq mu m') with (Pos.compare mu m').
  destruct (Pos.compare_spec mu m'); try lia; reflexivity.
Qed.

Lemma SFleb_finite_neg (mu m' : positive) (eu e' : Z) :
  e' < eu \/ (e' = eu /\ (m' <= mu)%positive) ->
  SFleb (S754_finite true mu eu) (S754_finite true m' e') = true.
Proof.
  intros H. unfold SFleb, SFcompare.
  destruct (Z.compare_spec eu e'); try lia; try reflexivity.
  change (Pos.compare_cont Eq mu m') with (Pos.compare mu m').
  destruct (Pos.compare_spec mu m'); try lia; reflexivity.
Qed.

Lemma SFleb_trans (x y z : spec_float) :
  SFleb x y = true -> SFleb y z = true -> SFleb x z = true.
Proof.
  unfold SFleb.
  destruct x as [[]|[]| |[] mx ex], y as [[]|[]| |[] my ey], z as [[]|[]| |[] mz ez];
    simpl; try reflexivity; try discriminate;
    change (Pos.compare_cont Eq) with Pos.compare;
    destruct (Z.compare_spec ex ey); try discriminate;
    destruct (Z.compare_spec ey ez); try discriminate;
    destruct (Z.compare_spec ex ez); try reflexivity; try lia;
    subst;
    repeat match goal with
           | |- context [Pos.compare ?a ?b] => destruct (Pos.compare_spec a b)
           end;
    simpl; try reflexivity; try discriminate; try lia.
Qed.

(** Adding a non-negative number never lowers the other operand. *)
Lemma SFadd_nonneg_ge (U C : spec_float) :
  valid_binary U = true -> sf_nonneg C ->
  SFadd prec emax U C = S754_nan \/ SFleb U (SFadd prec emax U C) = true.
Proof.
  intros HU HC.
  destruct U as [[]|[]| |su mu eu], C as [[]|sc| |sc mc ec]; simpl in HC; subst;
    try contradiction; try (left; reflexivity); try (right; reflexivity);
    try (right; apply SFleb_refl; discriminate).
  - (* finite + finite *)
    right. simpl in HU. apply andb_true_iff in HU as [Hcan Hmax].
    apply Z.leb_le in Hmax. change (emax - prec) with 971 in Hmax.
    unfold SFadd.
    set (ez := Z.min eu ec).
    pose proof (shl_align_fst mu eu ez ltac:(lia)) as EA.
    pose proof (shl_align_fst mc ec ez ltac:(lia)) as EB.
    pose proof (pow2_pos (eu - ez) ltac:(lia)).
    pose proof (pow2_pos (ec - ez) ltac:(lia)).
    destruct su; unfold cond_Zopp.
    + (* a negative number *)
      destruct (- Zpos (fst (shl_align mu eu ez)) + Zpos (fst (shl_align mc ec ez)))
        as [|M|M] eqn:EM; unfold binary_normalize.
      * reflexivity.
      * pose proof (binary_round_sign false M ez) as Hs.
        destruct (binary_round prec emax false M ez); simpl in Hs; subst;
          try contradiction; reflexivity.
      * pose proof (binary_round_le true M ez mu eu Hcan Hmax ltac:(lia) ltac:(lia)) as Hr.
        destruct (binary_round prec emax true M ez) as [s'|s'| |s' m' e'];
          try contradiction.
        -- reflexivity.
        -- destruct Hr as [-> Hr]. apply SFleb_finite_neg. assumption.
    + (* a positive number *)
      destruct (Zpos (fst (shl_align mu eu ez)) + Zpos (fst (shl_align mc ec ez)))
        as [|M|M] eqn:EM; try lia.
      unfold binary_normalize.
      pose proof (binary_round_ge false M ez mu eu Hcan ltac:(lia) ltac:(lia)) as Hr.
      destruct (binary_round prec emax false M ez) as [s'|s'| |s' m' e'];
        try contradiction.
      * subst. reflexivity.
      * destruct Hr as [-> Hr]. apply SFleb_finite_pos. assumption.
Qed.

Lemma is_nan_spec (x : float) :
  is_nan x = match Prim2SF x with S754_nan => true | _ => false end.
Proof.
  unfold is_nan. rewrite FloatAxioms.eqb_spec. unfold SFeqb.
  destruct (Prim2SF x) as [s|s| |s m e] eqn:E; try reflexivity;
    rewrite SFcompare_refl by discriminate; reflexivity.
Qed.

Lemma ltb_leb_false (x y : float) : (x <? y)%float = true -> (y <=? x)%float = false.
Proof. rewrite ltb_spec, leb_spec. apply SFltb_not_SFleb. Qed.

Lemma leb_ltb_false (x y : float) : (x <=? y)%float = true -> (y <? x)%float = false.
Proof. rewrite ltb_spec, leb_spec. apply SFleb_not_SFltb. Qed.

Lemma leb_refl (x : float) : is_nan x = false -> (x <=? x)%float = true.
Proof.
  rewrite is_nan_spec, leb_spec. intros H. apply SFleb_refl.
  intros E. rewrite E in H. discriminate.
Qed.

Lemma leb_trans (x y z : float) :
  (x <=? y)%float = true -> (y <=? z)%float = true -> (x <=? z)%float = true.
Proof. rewrite !leb_spec. apply SFleb_trans. Qed.

Lemma leb_not_nan_r (x y : float) : (x <=? y)%float = true -> is_nan y = false.
Proof.
  rewrite leb_spec, is_nan_spec. unfold SFleb.
  destruct (Prim2SF x), (Prim2SF y); simpl; congruence.
Qed.

Lemma leb_not_nan_l (x y : float) : (x <=? y)%float = true -> is_nan x = false.
Proof.
  rewrite leb_spec, is_nan_spec. unfold SFleb.
  destruct (Prim2SF x), (Prim2SF y); simpl; congruence.
Qed.

Lemma ltb_nan_l (x y : float) : is_nan x = true -> (x <? y)%float = false.
Proof.
  rewrite ltb_spec, is_nan_spec. unfold SFltb.
  destruct (Prim2SF x), (Prim2SF y); simpl; congruence.
Qed.

Lemma not_lowered_refl (x : float) : not_lowered x x = true.
Proof.
  unfold not_lowered. destruct (is_nan x) eqn:E; [reflexivity|].
  simpl. apply leb_refl. assumption.
Qed.

Lemma not_lowered_trans (x y z : float) :
  not_lowered x y = true -> not_lowered y z = true -> not_lowered x z = true.
Proof.
  unfold not_lowered. intros Hxy Hyz.
  destruct (is_nan z) eqn:Ez; [reflexivity|]. simpl in *.
  pose proof (leb_not_nan_l _ _ Hyz) as Ey. rewrite Ey in Hxy. simpl in Hxy.
  eapply leb_trans; eassumption.
Qed.

Lemma not_lowered_ltb (x y : float) : not_lowered x y = true -> (y <? x)%float = false.
Proof.
  unfold not_lowered. intros H. apply orb_true_iff in H as [H|H].
  - apply ltb_nan_l. assumption.
  - apply leb_ltb_false. assumption.
Qed.

Lemma Prim2SF_zero : Prim2SF 0 = S754_zero false.
Proof. reflexivity. Qed.

Lemma leb_zero_nonneg (x : float) : (0 <=? x)%float = true <-> sf_nonneg (Prim2SF x).
Proof.
  rewrite leb_spec, Prim2SF_zero. unfold SFleb.
  destruct (Prim2SF x) as [s|[]| |[] m e]; simpl; split; intros; try congruence; auto.
Qed.

Lemma add_nonneg_not_lowered (u c : float) :
  (0 <=? c)%float = true -> not_lowered u (u + c) = true.
Proof.
  intros Hc. apply leb_zero_nonneg in Hc.
  unfold not_lowered. rewrite is_nan_spec, leb_spec, add_spec.
  destruct (SFadd_nonneg_ge (Prim2SF u) (Prim2SF c) (Prim2SF_valid u) Hc) as [E|E].
  - unfold SF64add. rewrite E. reflexivity.
  - unfold SF64add. rewrite E. apply orb_true_r.
Qed.

Lemma is_infinity_spec (x : float) :
  is_infinity x = match Prim2SF x with S754_infinity _ => true | _ => false end.
Proof.
  unfold is_infinity. rewrite FloatAxioms.eqb_spec, abs_spec.
  change (Prim2SF infinity) with (S754_infinity false).
  destruct (Prim2SF x) as [s|s| |s m e]; reflexivity.
Qed.

Lemma has_sign_opp (s : bool) (f : spec_float) :
  has_sign s f -> has_sign (negb s) (SFopp f).
Proof. destruct f; simpl; congruence. Qed.

Lemma has_sign_ldexp (s : bool) (f : spec_float) (k : Z) :
  has_sign s f -> has_sign s (SFldexp prec emax f k).
Proof.
  destruct f as [| | |s' m e]; simpl; auto.
  intros ->. apply binary_round_sign.
Qed.

Lemma has_sign_normalize (n e : Z) :
  0 <= n -> has_sign false (binary_normalize prec emax n e false).
Proof.
  destruct n as [|p|p]; intros H;
    [reflexivity | apply binary_round_sign | lia].
Qed.

(** Reading a signed number back as a float keeps its sign. *)
Lemma SF2Prim_sign (s : bool) (f : spec_float) :
  has_sign s f -> has_sign s (Prim2SF (SF2Prim f)).
Proof.
  destruct f as [[]|[]| |s' m e]; simpl; intros H; subst; try reflexivity; try contradiction.
  assert (Hf : has_sign false
                 (Prim2SF (Z.ldexp (of_uint63 (Uint63Axioms.of_Z (Zpos m))) e))).
  { unfold Z.ldexp. rewrite ldshiftexp_spec, of_uint63_spec.
    apply has_sign_ldexp, has_sign_normalize.
    apply Uint63.to_Z_bounded. }
  destruct s; [|assumption].
  rewrite opp_spec. apply (has_sign_opp false). assumption.
Qed.

Lemma SFdiv_core_nonneg (m1 e1 m2 e2 : Z) :
  0 <= m1 -> 0 < m2 ->
  0 <= fst (fst (SFdiv_core_binary prec emax m1 e1 m2 e2)).
Proof.
  intros H1 H2. unfold SFdiv_core_binary.
  set (s := (e1 - e2 - _)).
  set (m' := match s with Zpos _ => Z.shiftl m1 s | Z0 => m1 | Zneg _ => 0 end).
  assert (Hm' : 0 <= m').
  { unfold m'. destruct s; try lia. apply Z.shiftl_nonneg. assumption. }
  pose proof (Z.div_pos m' m2 Hm' H2) as Hq. unfold Z.div in Hq.
  destruct (Z.div_eucl m' m2) as [q r]. simpl. assumption.
Qed.

Lemma SFdiv_Z_sign (a b : Z) :
  b <> 0 ->
  has_sign (xorb (Zsign a) (Zsign b)) (SFdiv prec emax (Py.Z2SF a) (Py.Z2SF b)).
Proof.
  intros Hb.
  destruct a as [|a|a], b as [|b|b]; try congruence; try reflexivity;
    unfold Py.Z2SF, SFdiv, Zsign;
    match goal with
    | |- context [SFdiv_core_binary prec emax ?m1 ?e1 ?m2 ?e2] =>
        pose proof (SFdiv_core_nonneg m1 e1 m2 e2 ltac:(lia) ltac:(lia)) as Hq;
        destruct (SFdiv_core_binary prec emax m1 e1 m2 e2) as [[mz ez] lz]
    end;
    simpl in Hq; apply binary_round_aux_sign; assumption.
Qed.

(** ** Binary64 rounding: representable results *)

Lemma iter_shr_1_m (mrs : shr_record) (p : positive) :
  0 <= shr_m mrs ->
  shr_m (SpecFloat.iter_pos shr_1 p mrs) = shr_m mrs / 2 ^ Zpos p.
Proof.
  intros Hm.
  pose (P := fun (j : Z) (x : shr_record) => shr_m x = shr_m mrs / 2 ^ j).
  change (P (Zpos p) (SpecFloat.iter_pos shr_1 p mrs)).
  replace (Zpos p) with (0 + Zpos p) by lia.
  apply (iter_pos_steps shr_1 P).
  - intros j x Hj Hx. unfold P in *.
    pose proof (pow2_pos j Hj) as Hp.
    assert (0 <= shr_m x) by (rewrite Hx; apply Z.div_pos; lia).
    destruct (shr_1_spec x) as (E1 & _); [assumption|].
    rewrite E1, Hx, Z.pow_add_r, Z.pow_1_r by lia.
    rewrite Z.div_div by lia. reflexivity.
  - lia.
  - unfold P. simpl. rewrite Z.div_1_r. reflexivity.
Qed.

(** The mantissa and exponent a shift leaves, whatever the location. *)
Lemma shr_fexp_m (m e : Z) (l : location) (mrs : shr_record) (e' : Z) :
  0 <= m ->
  shr_fexp prec emax m e l = (mrs, e') ->
  let k := fexp prec emax (Zdigits2 m + e) - e in
  (k <= 0 /\ shr_m mrs = m /\ e' = e)
  \/ (0 < k /\ shr_m mrs = m / 2 ^ k /\ e' = e + k).
Proof.
  intros Hm. unfold shr_fexp, shr.
  assert (Hrec : shr_m (shr_record_of_loc m l) = m) by (destruct l as [|[]]; reflexivity).
  destruct (fexp prec emax (Zdigits2 m + e) - e) as [|p|p] eqn:Hk;
    intros H; inversion H; subst; simpl.
  - left. repeat split; try lia; try assumption.
  - right. repeat split; try lia.
    rewrite iter_shr_1_m by (rewrite Hrec; assumption). rewrite Hrec. reflexivity.
  - left. repeat split; try lia; try assumption.
Qed.

Lemma Zdigits2_div_pow2 (m k : Z) :
  0 <= k -> 0 < m / 2 ^ k -> Zdigits2 (m / 2 ^ k) = Zdigits2 m - k.
Proof.
  intros Hk Hq. pose proof (pow2_pos k Hk) as Hp.
  assert (Hm : 0 < m).
  { destruct (Z_lt_le_dec 0 m) as [|Hle]; [assumption|].
    exfalso. assert (m / 2 ^ k <= 0) by (apply Z.div_le_upper_bound; lia). lia. }
  rewrite !Zdigits2_log2 by assumption.
  rewrite <- Z.shiftr_div_pow2 by assumption.
  rewrite Z.log2_shiftr by assumption.
  rewrite <- Z.shiftr_div_pow2 in Hq by assumption.
  assert (Hk' : k <= Z.log2 m).
  { destruct (Z_lt_le_dec (Z.log2 m) k) as [Hlt|]; [|assumption].
    exfalso. rewrite Z.shiftr_eq_0 in Hq by lia. lia. }
  lia.
Qed.

(** Rounding a mantissa that has at least the digits of its exponent's
    binade gives a representable number, and a finite one when the
    magnitude is below [2^1023]. *)
Lemma binary_round_aux_valid (s : bool) (m e : Z) (l : location) :
  0 < m ->
  e <= fexp prec emax (Zdigits2 m + e) ->
  Zdigits2 m + e <= 1023 ->
  valid_binary (binary_round_aux prec emax s m e l) = true
  /\ sf_finite (binary_round_aux prec emax s m e l).
Proof.
  intros Hm Hfull Hsmall. rewrite fexp_eq in Hfull.
  pose proof (Zdigits2_pos m Hm) as Hd.
  unfold binary_round_aux.
  destruct (shr_fexp prec emax m e l) as [mrs1 e1] eqn:E1.
  apply shr_fexp_m in E1; [|lia]. rewrite fexp_eq in E1.
  pose proof (round_nearest_even_bounds (shr_m mrs1) (loc_of_shr_record mrs1)) as Hm2.
  remember (round_nearest_even (shr_m mrs1) (loc_of_shr_record mrs1)) as m2 eqn:Hm2def.
  clear Hm2def.
  assert (Hfirst : 0 <= shr_m mrs1
                   /\ e1 = Z.max (Zdigits2 m + e - 53) (-1074)
                   /\ (0 < shr_m mrs1 -> Zdigits2 (shr_m mrs1) + e1 = Zdigits2 m + e)).
  { destruct E1 as [(Hk & -> & ->) | (Hk & Hm1 & ->)].
    - repeat split; lia.
    - pose proof (pow2_pos (Z.max (Zdigits2 m + e - 53) (-1074) - e) ltac:(lia)).
      repeat split; try lia.
      + rewrite Hm1. apply Z.div_pos; lia.
      + intros Hpos. rewrite Hm1 in *. rewrite Zdigits2_div_pow2 by lia. lia. }
  destruct Hfirst as (Hm1pos & He1 & Hd1).
  destruct (shr_fexp prec emax m2 e1 loc_Exact) as [mrs2 e2] eqn:E2.
  apply shr_fexp_m in E2; [|lia]. rewrite fexp_eq in E2.
  assert (Hfinal : 0 <= shr_m mrs2 /\ e2 <= 971
                   /\ (0 < shr_m mrs2 ->
                       Z.max (Zdigits2 (shr_m mrs2) + e2 - 53) (-1074) = e2)).
  { assert (Hd2 : 0 < m2 -> Zdigits2 m + e <= Zdigits2 m2 + e1 <= Zdigits2 m + e + 1
                             \/ (shr_m mrs1 = 0 /\ m2 = 1)).
    { intros Hm2pos.
      destruct (Z.eq_dec (shr_m mrs1) 0) as [E0|Hne]; [right; lia|left].
      specialize (Hd1 ltac:(lia)).
      pose proof (Zdigits2_bounds (shr_m mrs1) ltac:(lia)) as [HL HU].
      pose proof (Zdigits2_pos (shr_m mrs1) ltac:(lia)).
      assert (Zdigits2 (shr_m mrs1) <= Zdigits2 m2) by (apply Zdigits2_ge; lia).
      assert (Zdigits2 m2 <= Zdigits2 (shr_m mrs1) + 1).
      { apply Zdigits2_le; try lia. rewrite Z.pow_add_r, Z.pow_1_r by lia. lia. }
      lia. }
    destruct E2 as [(Hk & -> & ->) | (Hk & Hm3 & ->)].
    - repeat split; try lia.
      intros Hpos. destruct (Hd2 Hpos) as [Hr|[Hz ->]]; [lia|].
      simpl Zdigits2 in *. 
      destruct E1 as [(Hk1 & E & _) | (Hk1 & Hm1 & _)]; [lia|].
      assert (Zdigits2 m <= Z.max (Zdigits2 m + e - 53) (-1074) - e).
      { destruct (Z_lt_le_dec (Z.max (Zdigits2 m + e - 53) (-1074) - e) (Zdigits2 m))
          as [Hlt|]; [|assumption].
        exfalso. pose proof (Zdigits2_bounds m Hm) as [HL _].
        pose proof (pow2_pos (Z.max (Zdigits2 m + e - 53) (-1074) - e) ltac:(lia)).
        assert (2 ^ (Z.max (Zdigits2 m + e - 53) (-1074) - e) <= 2 ^ (Zdigits2 m - 1))
          by (apply Z.pow_le_mono_r; lia).
        assert (1 <= m / 2 ^ (Z.max (Zdigits2 m + e - 53) (-1074) - e))
          by (apply Z.div_le_lower_bound; lia).
        lia. }
      lia.
    - pose proof (pow2_pos (Z.max (Zdigits2 m2 + e1 - 53) (-1074) - e1) ltac:(lia)).
      assert (Hm2pos : 0 < m2).
      { destruct (Z.eq_dec m2 0) as [E0|]; [|lia].
        exfalso. rewrite E0 in Hk. simpl Zdigits2 in Hk. lia. }
      repeat split.
      + rewrite Hm3. apply Z.div_pos; lia.
      + destruct (Hd2 Hm2pos) as [Hr|[Hz ->]]; [lia|]. simpl Zdigits2 in *. lia.
      + intros Hpos. rewrite Hm3 in *. rewrite Zdigits2_div_pow2 by lia. lia. }
  destruct Hfinal as (Hpos & Hover & Hcan).
  destruct (shr_m mrs2) as [|m3|m3]; try lia; [split; [reflexivity | exact I]|].
  replace (e2 <=? emax - prec) with true
    by (symmetry; apply Z.leb_le; change (emax - prec) with 971; lia).
  split; [|exact I].
  simpl. unfold bounded, canonical_mantissa. rewrite fexp_eq.
  change (Zpos (digits2_pos m3)) with (Zdigits2 (Zpos m3)).
  rewrite Hcan by lia. rewrite Z.eqb_refl. simpl.
  apply Z.leb_le. change (emax - prec) with 971. lia.
Qed.

(** The quotient the division core hands to rounding, for a count below
    [2^1000] divided by one million. *)
Lemma div_core_million (p : positive) :
  Zpos p < 2 ^ 1000 ->
  let '(q, e', _) := SFdiv_core_binary prec emax (Zpos p) 0 1000000 0 in
  0 < q
  /\ e' <= fexp prec emax (Zdigits2 q + e')
  /\ Zdigits2 q + e' <= 1023.
Proof.
  intros Hsmall. unfold SFdiv_core_binary.
  change (Zdigits2 1000000) with 20. rewrite fexp_eq.
  pose proof (Zdigits2_bounds (Zpos p) ltac:(lia)) as [HL HU].
  pose proof (Zdigits2_pos (Zpos p) ltac:(lia)) as Hd.
  assert (Hd1 : Zdigits2 (Zpos p) <= 1000) by (apply Zdigits2_le; lia).
  remember (Zdigits2 (Zpos p)) as d1 eqn:Ed1. clear Ed1.
  remember (Z.min (Z.max (d1 + 0 - (20 + 0) - 53) (-1074)) (0 - 0)) as e' eqn:Ee'.
  remember (0 - 0 - e') as s eqn:Es.
  assert (Hs : 0 <= s) by lia.
  pose proof (pow2_pos s Hs) as Hps.
  assert (Hm' : match s with
                | 0 => Zpos p
                | Zpos _ => Z.shiftl (Zpos p) s
                | Zneg _ => 0
                end = Zpos p * 2 ^ s).
  { destruct s as [|s'|s'] eqn:E; [simpl; lia | | lia].
    rewrite Z.shiftl_mul_pow2 by lia. reflexivity. }
  rewrite Hm'. clear Hm'.
  pose proof (Z_div_mod (Zpos p * 2 ^ s) 1000000 ltac:(lia)) as Hdm.
  assert (Hq : fst (Z.div_eucl (Zpos p * 2 ^ s) 1000000) = Zpos p * 2 ^ s / 1000000)
    by reflexivity.
  destruct (Z.div_eucl (Zpos p * 2 ^ s) 1000000) as [q r]. simpl in Hq. subst q.
  clear Hdm.
  assert (Hexp : 0 <= d1 + s - 21) by lia.
  assert (Hlow : 2 ^ (d1 + s - 21) <= Zpos p * 2 ^ s / 1000000).
  { apply Z.div_le_lower_bound; [lia|].
    assert (2 ^ (d1 - 1 + s) = 2 ^ (d1 + s - 21) * 2 ^ 20).
    { rewrite <- Z.pow_add_r by lia. f_equal. lia. }
    assert (2 ^ (d1 - 1 + s) = 2 ^ (d1 - 1) * 2 ^ s) by (apply Z.pow_add_r; lia).
    pose proof (pow2_pos (d1 + s - 21) Hexp).
    change (2 ^ 20) with 1048576 in *. nia. }
  assert (Hup : Zpos p * 2 ^ s / 1000000 < 2 ^ (d1 + s - 19)).
  { apply Z.div_lt_upper_bound; [lia|].
    assert (2 ^ (d1 + s) = 2 ^ (d1 + s - 19) * 2 ^ 19).
    { rewrite <- Z.pow_add_r by lia. f_equal. lia. }
    assert (2 ^ (d1 + s) = 2 ^ d1 * 2 ^ s) by (apply Z.pow_add_r; lia).
    pose proof (pow2_pos (d1 + s - 19) ltac:(lia)).
    change (2 ^ 19) with 524288 in *. nia. }
  pose proof (pow2_pos (d1 + s - 21) Hexp) as Hpq.
  set (q := Zpos p * 2 ^ s / 1000000) in *.
  assert (Hdq1 : d1 + s - 20 <= Zdigits2 q).
  { apply Zdigits2_ge; [lia|]. replace (d1 + s - 20 - 1) with (d1 + s - 21) by lia. lia. }
  assert (Hdq2 : Zdigits2 q <= d1 + s - 19) by (apply Zdigits2_le; lia).
  rewrite fexp_eq. repeat split; lia.
Qed.

(** Dividing a count below [2^1000] in absolute value by one million never
    overflows. *)
Lemma int_truediv_million_small (a : Z) :
  Z.abs a < 2 ^ 1000 -> exists q, Py.int_truediv a 1000000 = Ok q.
Proof.
  intros Ha. unfold Py.int_truediv.
  change (1000000 =? 0) with false. cbv iota.
  assert (Hfin : valid_binary (SFdiv prec emax (Py.Z2SF a) (Py.Z2SF 1000000)) = true
                 /\ sf_finite (SFdiv prec emax (Py.Z2SF a) (Py.Z2SF 1000000))).
  { destruct a as [|p|p].
    - split; [reflexivity | exact I].
    - unfold Py.Z2SF, SFdiv.
      pose proof (div_core_million p ltac:(lia)) as H.
      change (Zpos 1000000) with 1000000 in *.
      destruct (SFdiv_core_binary prec emax (Zpos p) 0 1000000 0) as [[q e'] l].
      destruct H as (H1 & H2 & H3). apply binary_round_aux_valid; assumption.
    - unfold Py.Z2SF, SFdiv.
      pose proof (div_core_million p ltac:(lia)) as H.
      change (Zpos 1000000) with 1000000 in *.
      destruct (SFdiv_core_binary prec emax (Zpos p) 0 1000000 0) as [[q e'] l].
      destruct H as (H1 & H2 & H3). apply binary_round_aux_valid; assumption. }
  destruct Hfin as [Hvalid Hfinite].
  unfold Py.int_quotient. rewrite is_infinity_spec, Prim2SF_SF2Prim by assumption.
  destruct (SFdiv prec emax (Py.Z2SF a) (Py.Z2SF 1000000)); simpl in Hfinite;
    try contradiction; eexists; reflexivity.
Qed.

(** ** The cost formula: signs and zeros *)

Lemma int_quotient_sign (a b : Z) :
  b <> 0 ->
  has_sign (xorb (Zsign a) (Zsign b)) (Prim2SF (Py.int_quotient a b)).
Proof. intros Hb. apply SF2Prim_sign, SFdiv_Z_sign. assumption. Qed.

(** A quotient that [int_truediv] returns is a finite number with the sign
    of the division. *)
Lemma int_truediv_finite (a b : Z) (q : float) :
  Py.int_truediv a b = Ok q ->
  sf_finite (Prim2SF q) /\ has_sign (xorb (Zsign a) (Zsign b)) (Prim2SF q).
Proof.
  unfold Py.int_truediv. destruct (Z.eqb_spec b 0) as [|Hb]; [discriminate|].
  destruct (is_infinity (Py.int_quotient a b)) eqn:Hinf; [discriminate|].
  intros H. inversion H; subst q. clear H.
  pose proof (int_quotient_sign a b Hb) as Hs.
  rewrite is_infinity_spec in Hinf.
  destruct (Prim2SF (Py.int_quotient a b)); simpl in *; try discriminate; auto.
Qed.

Lemma SFmul_nonneg (X Y : spec_float) :
  sf_nonneg X -> sf_nonneg Y -> sf_finite X \/ ~ sf_zero Y -> sf_finite Y \/ ~ sf_zero X ->
  sf_nonneg (SFmul prec emax X Y).
Proof.
  destruct X as [sx|sx| |sx mx ex], Y as [sy|sy| |sy my ey]; simpl;
    intros HX HY H1 H2; subst; try contradiction; try reflexivity; try exact I;
    try (destruct H1 as [H1|H1]; [contradiction | exfalso; apply H1; exact I]);
    try (destruct H2 as [H2|H2]; [contradiction | exfalso; apply H2; exact I]).
  apply has_sign_nonneg. apply (binary_round_aux_sign false). lia.
Qed.

Lemma SFadd_nonneg (X Y : spec_float) :
  sf_nonneg X -> sf_nonneg Y -> sf_nonneg (SFadd prec emax X Y).
Proof.
  destruct X as [[]|sx| |sx mx ex], Y as [[]|sy| |sy my ey]; simpl;
    intros HX HY; subst; try contradiction; try reflexivity; try exact I.
  apply has_sign_nonneg.
  apply has_sign_normalize. unfold cond_Zopp. lia.
Qed.

Lemma SFmul_zero_r (X Y : spec_float) :
  sf_finite X -> sf_zero Y -> sf_zero (SFmul prec emax X Y).
Proof. destruct X, Y; simpl; intros; try contradiction; exact I. Qed.

Lemma SFmul_zero_l (X Y : spec_float) :
  sf_zero X -> sf_finite Y -> sf_zero (SFmul prec emax X Y).
Proof. destruct X, Y; simpl; intros; try contradiction; exact I. Qed.

Lemma SFadd_zero (X Y : spec_float) :
  sf_zero X -> sf_zero Y -> sf_zero (SFadd prec emax X Y).
Proof. destruct X as [[]| | |], Y as [[]| | |]; simpl; intros; try contradiction; exact I. Qed.

Lemma round4_of_zero (x : float) : sf_zero (Prim2SF x) -> Py.round4 x = x.
Proof. unfold Py.round4. destruct (Prim2SF x); simpl; intros H; try contradiction. reflexivity. Qed.

Lemma round4_nonneg (x : float) :
  sf_nonneg (Prim2SF x) -> sf_nonneg (Prim2SF (Py.round4 x)).
Proof.
  unfold Py.round4. intros H.
  destruct (Prim2SF x) as [s|s| |s m e] eqn:E; try (rewrite E; exact H).
  simpl in H. subst s.
  destruct (0 <=? e); [rewrite E; reflexivity|].
  destruct (Py.round_half_even _ _) as [|k|k]; try exact I.
  apply has_sign_nonneg, SF2Prim_sign.
  apply (SFdiv_Z_sign (Zpos k) 10000). lia.
Qed.

Lemma MODEL_PRICING_lookup (m : string) (p : OpenAIAdapter.pricing) :
  OpenAIAdapter.MODEL_PRICING !! m = Some p ->
  (m = "gpt-4o" /\ p = OpenAIAdapter.Build_pricing 5 15)
  \/ (m = "gpt-4-turbo" /\ p = OpenAIAdapter.Build_pricing 10 30)
  \/ (m = "gpt-3.5-turbo" /\ p = OpenAIAdapter.Build_pricing 0.5 1.5).
Proof.
  unfold OpenAIAdapter.MODEL_PRICING.
  rewrite !lookup_insert_Some, lookup_empty.
  intros [[<- <-]|[_ [[<- <-]|[_ [[<- <-]|[_ H]]]]]]; auto. discriminate.
Qed.

(** Every price the formula can use is a finite non-negative number. *)
Lemma pricing_class (m : string) :
  let p := default (OpenAIAdapter.Build_pricing 0 0) (OpenAIAdapter.MODEL_PRICING !! m) in
  (sf_nonneg (Prim2SF (OpenAIAdapter.input p)) /\ sf_finite (Prim2SF (OpenAIAdapter.input p)))
  /\ (sf_nonneg (Prim2SF (OpenAIAdapter.output p)) /\ sf_finite (Prim2SF (OpenAIAdapter.output p))).
Proof.
  destruct (OpenAIAdapter.MODEL_PRICING !! m) as [p|] eqn:E; simpl.
  - apply MODEL_PRICING_lookup in E as [[_ ->]|[[_ ->]|[_ ->]]];
      vm_compute; auto.
  - vm_compute; auto.
Qed.

Lemma rate_class :
  sf_nonneg (Prim2SF OpenAIAdapter.usd_to_inr_rate)
  /\ sf_finite (Prim2SF OpenAIAdapter.usd_to_inr_rate)
  /\ ~ sf_zero (Prim2SF OpenAIAdapter.usd_to_inr_rate).
Proof. vm_compute. auto. Qed.

Lemma Zsign_nonneg (z : Z) : 0 <= z -> Zsign z = false.
Proof. destruct z; simpl; intros; [reflexivity | reflexivity | lia]. Qed.

Lemma calculate_cost_nonneg (input_tokens output_tokens : Z) (model_name : string) (c : float) :
  0 <= input_tokens -> 0 <= output_tokens ->
  OpenAIAdapter._calculate_openai_cost input_tokens output_tokens model_name = Ok c ->
  (0 <=? c)%float = true.
Proof.
  intros Hi Ho. unfold OpenAIAdapter._calculate_openai_cost.
  pose proof (pricing_class model_name) as [[Pin1 Pin2] [Pout1 Pout2]].
  set (p := default _ _) in *.
  destruct (Py.int_truediv input_tokens 1000000) as [qi|] eqn:Ei; [|discriminate].
  destruct (Py.int_truediv output_tokens 1000000) as [qo|] eqn:Eo; [|discriminate].
  simpl. unfold mret, result_ret. intros H. inversion H; subst c. clear H.
  apply int_truediv_finite in Ei as [Fi Si], Eo as [Fo So].
  rewrite Zsign_nonneg in Si, So by assumption. simpl in Si, So.
  apply has_sign_nonneg in Si, So.
  destruct rate_class as (R1 & R2 & R3).
  apply leb_zero_nonneg, round4_nonneg.
  rewrite mul_spec. apply SFmul_nonneg; auto.
  rewrite add_spec. apply SFadd_nonneg; rewrite mul_spec; apply SFmul_nonneg; auto.
Qed.

Lemma calculate_cost_unknown_model
    (input_tokens output_tokens : Z) (model_name : string) (qi qo : float) :
  OpenAIAdapter.MODEL_PRICING !! model_name = None ->
  Py.int_truediv input_tokens 1000000 = Ok qi ->
  Py.int_truediv output_tokens 1000000 = Ok qo ->
  exists c, OpenAIAdapter._calculate_openai_cost input_tokens output_tokens model_name = Ok c
            /\ (c =? 0)%float = true.
Proof.
  intros Hm Ei Eo. unfold OpenAIAdapter._calculate_openai_cost.
  rewrite Hm, Ei, Eo. simpl.
  eexists. split; [reflexivity|].
  apply int_truediv_finite in Ei as [Fi _], Eo as [Fo _].
  destruct rate_class as (_ & R2 & _).
  assert (Hz : sf_zero (Prim2SF ((qi * 0 + qo * 0) * OpenAIAdapter.usd_to_inr_rate)%float)).
  { rewrite mul_spec. apply SFmul_zero_l; [|assumption].
    rewrite add_spec. apply SFadd_zero; rewrite mul_spec; apply SFmul_zero_r; auto;
      exact I. }
  rewrite round4_of_zero by assumption.
  rewrite FloatAxioms.eqb_spec. revert Hz.
  generalize (Prim2SF ((qi * 0 + qo * 0) * OpenAIAdapter.usd_to_inr_rate)%float).
  intros [s|s| |s m e]; simpl; intros Hz; try contradiction. reflexivity.
Qed.

(** ** The interceptor, branch by branch *)

Section Interceptor.

Variable original_method : call_args -> M ChatCompletion.
Variable adapter : Adapter.

Lemma wrap_installs_wrapper (client : Client) (w0 w1 : World) (wrapped : Client) :
  wrap client adapter w0 = (Ok wrapped, w1) ->
  chat_completions_create wrapped
    = _sentinel_wrapper (chat_completions_create client) adapter /\ w1 = w0.
Proof.
  unfold wrap, mbind, M_bind, get_config, raise, mret, M_ret.
  destruct (negb (truthy_opt (api_key (config w0)))); intros H; inversion H; subst.
  split; reflexivity.
Qed.

Lemma wrapper_gate_closed (a : call_args) (w : World) :
  Py.ge (current_usage (config w)) (monthly_budget (config w)) = true ->
  _sentinel_wrapper original_method adapter a w
    = (Raise (BudgetExceededError
                [Lit "Project has exceeded its budget of ";
                 FmtFloat (monthly_budget (config w)); Lit "."]), w).
Proof.
  intros Hgate.
  unfold _sentinel_wrapper, mbind, M_bind, get_config, raise.
  rewrite Hgate. reflexivity.
Qed.

Lemma wrapper_metered (a : call_args) (w w1 : World)
    (response : ChatCompletion) (usage_data : usage_record) :
  Py.ge (current_usage (config w)) (monthly_budget (config w)) = false ->
  original_method a (entered a w) = (Ok response, w1) ->
  get_usage_and_cost response = Ok usage_data ->
  _sentinel_wrapper original_method adapter a w
    = (Ok response,
       {| config := set_current_usage
                      (current_usage (config w1) + cost usage_data)%float (config w1);
          log := log w1 ++ [ThreadStarted usage_data] |}).
Proof.
  intros Hgate Horig Hmeter.
  unfold _sentinel_wrapper, mbind, M_bind, get_config.
  rewrite Hgate.
  unfold call_original, mbind, M_bind, emit. fold (entered a w). rewrite Horig.
  unfold try_except, lift, mbind, M_bind. rewrite Hmeter.
  reflexivity.
Qed.

Lemma wrapper_meter_failed (a : call_args) (w w1 : World)
    (response : ChatCompletion) (e : exn) :
  Py.ge (current_usage (config w)) (monthly_budget (config w)) = false ->
  original_method a (entered a w) = (Ok response, w1) ->
  get_usage_and_cost response = Raise e ->
  _sentinel_wrapper original_method adapter a w
    = (Ok response,
       {| config := config w1;
          log := log w1 ++ [Printed (Lit "SENTINEL WARNING: Could not process usage. Error: "
                                      :: str_exn e)] |}).
Proof.
  intros Hgate Horig Hmeter.
  unfold _sentinel_wrapper, mbind, M_bind, get_config.
  rewrite Hgate.
  unfold call_original, mbind, M_bind, emit. fold (entered a w). rewrite Horig.
  unfold try_except, lift, mbind, M_bind. rewrite Hmeter.
  reflexivity.
Qed.

Lemma wrapper_original_raised (a : call_args) (w w1 : World) (e : exn) :
  Py.ge (current_usage (config w)) (monthly_budget (config w)) = false ->
  original_method a (entered a w) = (Raise e, w1) ->
  _sentinel_wrapper original_method adapter a w = (Raise e, w1).
Proof.
  intros Hgate Horig.
  unfold _sentinel_wrapper, mbind, M_bind, get_config.
  rewrite Hgate.
  unfold call_original, mbind, M_bind, emit. fold (entered a w). rewrite Horig.
  reflexivity.
Qed.

End Interceptor.

(** ** The session initialiser, outcome by outcome *)

Lemma init_bad_key (net : http_outcome) (api_key : string) (w : World) :
  key_format_ok api_key = false ->
  init net api_key w
    = (Raise (ValueError
                [Lit "A valid Sentinel API key (api-sentinel_pk_...) is required."]), w).
Proof.
  unfold key_format_ok, init. intros H.
  rewrite <- negb_andb, H. reflexivity.
Qed.

(** What [init] does once the key has passed the format check, in terms of
    the outcome of the verify request. *)
Lemma init_verify (net : http_outcome) (api_key : string) (w : World) :
  key_format_ok api_key = true ->
  init net api_key w =
    match net with
    | NoResponse why =>
        (Raise (RuntimeError
                  (Lit "[API - SENTINEL] Could not connect to backend. Network error: "
                   :: why)), verify_sent api_key w)
    | Responded r =>
        if (400 <=? status_code r) && (status_code r <? 600)
        then
          if status_code r =? 401
          then (Raise (ValueError
                  [Lit "Invalid Sentinel API key. Please check your key on the dashboard."]),
                verify_sent api_key w)
          else (Raise (RuntimeError
                  [Lit "[API - SENTINEL] Could not connect to backend. Status: ";
                   FmtInt (status_code r)]), verify_sent api_key w)
        else
          match json_body r with
          | None =>
              (Raise (RuntimeError
                  [Lit "[API - SENTINEL] Could not connect to backend. Network error: ";
                   Lit "Expecting value"]), verify_sent api_key w)
          | Some data =>
              match body_project_id data, body_monthly_budget data, body_current_usage data with
              | None, _, _ => (Raise (KeyError "project_id"), verify_sent api_key w)
              | Some p, None, _ =>
                  (Raise (KeyError "monthly_budget"),
                   {| config := set_project_id (Some p) (config (verify_sent api_key w));
                      log := log (verify_sent api_key w) |})
              | Some p, Some b, None =>
                  (Raise (KeyError "current_usage"),
                   {| config := set_monthly_budget b
                                  (set_project_id (Some p) (config (verify_sent api_key w)));
                      log := log (verify_sent api_key w) |})
              | Some p, Some b, Some u =>
                  (Ok tt,
                   {| config := set_current_usage u
                                  (set_monthly_budget b
                                     (set_project_id (Some p)
                                        (config (verify_sent api_key w))));
                      log := log (verify_sent api_key w) ++
                             [Printed [Lit "SENTINEL: Initialization successful. Budget is ready."]]
                   |})
              end
          end
    end.
Proof.
  unfold key_format_ok, init. intros H.
  rewrite <- negb_andb, H. cbn [negb].
  destruct net as [why|r].
  - reflexivity.
  - unfold mbind, M_bind, update, get_config, put_config, print, emit, try_except,
      requests_get, raise_for_status, json, getitem, raise, mret, M_ret. simpl.
    destruct ((400 <=? status_code r) && (status_code r <? 600)).
    + destruct (status_code r =? 401); reflexivity.
    + destruct (json_body r) as [data|]; [|reflexivity].
      destruct (body_project_id data), (body_monthly_budget data), (body_current_usage data);
        reflexivity.
Qed.

Lemma http_requests_app (l1 l2 : list event) :
  http_requests (l1 ++ l2) = (http_requests l1 + http_requests l2)%nat.
Proof.
  induction l1 as [|ev l1 IH]; simpl; [reflexivity|].
  destruct ev; simpl; rewrite IH; reflexivity.
Qed.

Lemma original_calls_app (l1 l2 : list event) :
  original_calls (l1 ++ l2) = (original_calls l1 + original_calls l2)%nat.
Proof.
  induction l1 as [|ev l1 IH]; simpl; [reflexivity|].
  destruct ev; simpl; rewrite IH; reflexivity.
Qed.

Lemma key_format_bad (api_key : string) :
  api_key = "" \/ String.prefix "api-sentinel_pk_" api_key = false ->
  key_format_ok api_key = false.
Proof.
  unfold key_format_ok. intros [-> | ->]; [reflexivity|]. apply andb_false_r.
Qed.


(** ** Runs of metered calls *)

Lemma get_usage_and_cost_nonneg (response : ChatCompletion) (usage_data : usage_record) :
  0 <= prompt_tokens (usage response) ->
  0 <= completion_tokens (usage response) ->
  OpenAIAdapter.get_usage_and_cost response = Ok usage_data ->
  (0 <=? cost usage_data)%float = true.
Proof.
  intros Hi Ho. unfold OpenAIAdapter.get_usage_and_cost.
  destruct (OpenAIAdapter._calculate_openai_cost _ _ _) as [c|] eqn:Ec; [|discriminate].
  simpl. intros [= <-]. simpl.
  exact (calculate_cost_nonneg _ _ _ _ Hi Ho Ec).
Qed.

Section MeteredRuns.

Variable original_method : call_args -> M ChatCompletion.

(** The client leaves the SDK's configuration alone. *)
Hypothesis client_frame :
  forall a w, config (snd (original_method a w)) = config w.

(** The client reports non-negative token counts. *)
Hypothesis client_tokens :
  forall a w response w',
    original_method a w = (Ok response, w') ->
    0 <= prompt_tokens (usage response) /\ 0 <= completion_tokens (usage response).

Lemma wrapper_step_not_lowered (a : call_args) (w : World) :
  not_lowered (current_usage (config w))
    (current_usage
       (config (snd (_sentinel_wrapper original_method OpenAIAdapter.adapter a w))))
  = true.
Proof using client_frame client_tokens.
  destruct (Py.ge (current_usage (config w)) (monthly_budget (config w))) eqn:Hgate.
  - rewrite wrapper_gate_closed by assumption. apply not_lowered_refl.
  - pose proof (client_frame a (entered a w)) as Hframe.
    destruct (original_method a (entered a w)) as [[response|e] wr] eqn:Horig.
    + simpl in Hframe.
      destruct (client_tokens _ _ _ _ Horig) as [Hi Ho].
      destruct (@get_usage_and_cost OpenAIAdapter.adapter response)
        as [usage_data|e] eqn:Hmeter.
      * erewrite wrapper_metered by eassumption. simpl. rewrite Hframe. simpl.
        apply add_nonneg_not_lowered.
        eapply get_usage_and_cost_nonneg; eassumption.
      * erewrite wrapper_meter_failed by eassumption. simpl. rewrite Hframe.
        apply not_lowered_refl.
    + erewrite wrapper_original_raised by eassumption.
      simpl in *. rewrite Hframe. apply not_lowered_refl.
Qed.

Lemma run_calls_not_lowered (calls : list call_args) (w : World) :
  not_lowered (current_usage (config w))
    (current_usage
       (config (run_calls (_sentinel_wrapper original_method OpenAIAdapter.adapter) calls w)))
  = true.
Proof using client_frame client_tokens.
  revert w. induction calls as [|a calls IH]; intros w; simpl.
  - apply not_lowered_refl.
  - eapply not_lowered_trans; [apply wrapper_step_not_lowered | apply IH].
Qed.

End MeteredRuns.

Lemma binary_normalize_not_nan (m e : Z) :
  binary_normalize prec emax m e false <> S754_nan.
Proof.
  destruct m as [|p|p]; simpl; [discriminate| |].
  - pose proof (binary_round_sign false p e) as H.
    destruct (binary_round prec emax false p e); simpl in H; congruence.
  - pose proof (binary_round_sign true p e) as H.
    destruct (binary_round prec emax true p e); simpl in H; congruence.
Qed.

Lemma SFadd_above_ge (U C : spec_float) :
  valid_binary U = true -> sf_above U -> sf_nonneg C ->
  SFleb U (SFadd prec emax U C) = true.
Proof.
  intros HU HA HC.
  destruct (SFadd_nonneg_ge U C HU HC) as [E|E]; [|assumption].
  exfalso. revert E.
  destruct U as [[]|[]| |su mu eu], C as [[]|[]| |[] mc ec]; simpl in *;
    try discriminate; try contradiction.
  apply binary_normalize_not_nan.
Qed.

Lemma SFleb_above (U R : spec_float) :
  sf_above U -> SFleb U R = true -> sf_above R.
Proof.
  unfold SFleb.
  destruct U as [[]|[]| |[] mu eu], R as [[]|[]| |[] mr er]; simpl;
    intros; try discriminate; try contradiction; auto.
Qed.

Lemma ltb_neg_infinity_above (u : float) :
  (neg_infinity <? u)%float = true <-> sf_above (Prim2SF u).
Proof.
  rewrite ltb_spec. change (Prim2SF neg_infinity) with (S754_infinity true).
  unfold SFltb.
  destruct (Prim2SF u) as [s|[]| |s m e]; simpl; split; intros; try congruence; auto.
Qed.

Lemma add_above_leb (u c : float) :
  (neg_infinity <? u)%float = true -> (0 <=? c)%float = true ->
  (u <=? u + c)%float = true.
Proof.
  intros Hu Hc. apply ltb_neg_infinity_above in Hu. apply leb_zero_nonneg in Hc.
  rewrite leb_spec, add_spec. apply SFadd_above_ge; auto. apply Prim2SF_valid.
Qed.

Lemma leb_above (u v : float) :
  (neg_infinity <? u)%float = true -> (u <=? v)%float = true ->
  (neg_infinity <? v)%float = true.
Proof.
  intros Hu Hle. apply ltb_neg_infinity_above in Hu. apply ltb_neg_infinity_above.
  rewrite leb_spec in Hle. eapply SFleb_above; eassumption.
Qed.

Lemma above_not_nan (u : float) : (neg_infinity <? u)%float = true -> is_nan u = false.
Proof.
  intros Hu. apply ltb_neg_infinity_above in Hu. rewrite is_nan_spec.
  destruct (Prim2SF u); simpl in *; try contradiction; reflexivity.
Qed.

Section MeteredRunsOrdinary.

Variable original_method : call_args -> M ChatCompletion.

Hypothesis client_frame :
  forall a w, config (snd (original_method a w)) = config w.

Hypothesis client_tokens :
  forall a w response w',
    original_method a w = (Ok response, w') ->
    0 <= prompt_tokens (usage response) /\ 0 <= completion_tokens (usage response).

Lemma wrapper_step_leb (a : call_args) (w : World) :
  (neg_infinity <? current_usage (config w))%float = true ->
  (current_usage (config w)
   <=? current_usage
         (config (snd (_sentinel_wrapper original_method OpenAIAdapter.adapter a w))))%float
  = true.
Proof using client_frame client_tokens.
  intros Hu. pose proof (leb_refl _ (above_not_nan _ Hu)) as Hrefl.
  destruct (Py.ge (current_usage (config w)) (monthly_budget (config w))) eqn:Hgate.
  - rewrite wrapper_gate_closed by assumption. exact Hrefl.
  - pose proof (client_frame a (entered a w)) as Hframe.
    destruct (original_method a (entered a w)) as [[response|e] wr] eqn:Horig.
    + simpl in Hframe.
      destruct (client_tokens _ _ _ _ Horig) as [Hi Ho].
      destruct (@get_usage_and_cost OpenAIAdapter.adapter response)
        as [usage_data|e] eqn:Hmeter.
      * erewrite wrapper_metered by eassumption. simpl. rewrite Hframe. simpl.
        apply add_above_leb; [assumption|].
        eapply get_usage_and_cost_nonneg; eassumption.
      * erewrite wrapper_meter_failed by eassumption. simpl. rewrite Hframe.
        exact Hrefl.
    + erewrite wrapper_original_raised by eassumption.
      simpl in *. rewrite Hframe. exact Hrefl.
Qed.

Lemma run_calls_leb (calls : list call_args) (w : World) :
  (neg_infinity <? current_usage (config w))%float = true ->
  (current_usage (config w)
   <=? current_usage
         (config (run_calls (_sentinel_wrapper original_method OpenAIAdapter.adapter)
                    calls w)))%float
  = true.
Proof using client_frame client_tokens.
  revert w. induction calls as [|a calls IH]; intros w Hu; simpl.
  - apply leb_refl, above_not_nan, Hu.
  - pose proof (wrapper_step_leb a w Hu) as Hstep.
    eapply leb_trans; [exact Hstep|].
    apply IH. eapply leb_above; eassumption.
Qed.

End MeteredRunsOrdinary.


(** ** The stated properties *)

(** C1. With [current_usage >= monthly_budget], a call of the wrapped
    completion method raises [BudgetExceededError], the configured ceiling is
    formatted into the message, and the captured original method is not
    invoked: the state and the log, and so the spy's call counter, are as
    before the call. *)
Theorem budget_gate_blocks_the_call
    (client : Client) (adapter : Adapter) (w0 w1 : World) (wrapped : Client)
    (a : call_args) (w : World) :
  wrap client adapter w0 = (Ok wrapped, w1) ->
  Py.ge (current_usage (config w)) (monthly_budget (config w)) = true ->
  exists msg,
    chat_completions_create wrapped a w = (Raise (BudgetExceededError msg), w)
    /\ In (FmtFloat (monthly_budget (config w))) msg
    /\ original_calls (log (snd (chat_completions_create wrapped a w)))
       = original_calls (log w).
Proof.
  intros Hwrap Hgate.
  apply wrap_installs_wrapper in Hwrap as [-> _].
  rewrite wrapper_gate_closed by assumption.
  eexists. split; [reflexivity|]. split; [|reflexivity].
  simpl. auto.
Qed.

Lemma budget_gate_blocks_the_call_witness :
  exists msg,
    chat_completions_create
      {| chat_completions_create :=
           _sentinel_wrapper (chat_completions_create Example.client) OpenAIAdapter.adapter |}
      Example.no_args Example.exhausted
    = (Raise (BudgetExceededError msg), Example.exhausted)
    /\ In (FmtFloat 100) msg
    /\ original_calls (log (snd (chat_completions_create
         {| chat_completions_create :=
              _sentinel_wrapper (chat_completions_create Example.client)
                OpenAIAdapter.adapter |}
         Example.no_args Example.exhausted)))
       = original_calls (log Example.exhausted).
Proof.
  apply (budget_gate_blocks_the_call Example.client OpenAIAdapter.adapter
           Example.ready Example.ready _ Example.no_args Example.exhausted).
  - reflexivity.
  - reflexivity.
Defined.

(** C2. With [current_usage < monthly_budget], when the underlying call
    returns a response and the adapter returns a usage record, the wrapped
    method returns that very response, and the only change it makes to the
    configuration the underlying call left is that [current_usage] has the
    adapter's cost added to it. *)
Theorem metered_call_adds_the_cost
    (client : Client) (adapter : Adapter) (w0 w1 : World) (wrapped : Client)
    (a : call_args) (w wr : World) (response : ChatCompletion) (usage_data : usage_record) :
  wrap client adapter w0 = (Ok wrapped, w1) ->
  (current_usage (config w) <? monthly_budget (config w))%float = true ->
  chat_completions_create client a (entered a w) = (Ok response, wr) ->
  get_usage_and_cost response = Ok usage_data ->
  exists w',
    chat_completions_create wrapped a w = (Ok response, w')
    /\ config w' = set_current_usage
                     (current_usage (config wr) + cost usage_data)%float (config wr)
    /\ (config wr = config w ->
        current_usage (config w')
        = (current_usage (config w) + cost usage_data)%float).
Proof.
  intros Hwrap Hlt Horig Hmeter.
  apply wrap_installs_wrapper in Hwrap as [-> _].
  apply ltb_leb_false in Hlt.
  erewrite wrapper_metered by eassumption.
  eexists. split; [reflexivity|]. split; [reflexivity|].
  simpl. intros ->. reflexivity.
Qed.

Lemma metered_call_adds_the_cost_witness :
  exists w',
    chat_completions_create
      {| chat_completions_create :=
           _sentinel_wrapper (chat_completions_create Example.client) OpenAIAdapter.adapter |}
      Example.no_args Example.ready
    = (Ok Example.response, w')
    /\ current_usage (config w') = (1.5 + 1.0437)%float.
Proof.
  destruct (metered_call_adds_the_cost Example.client OpenAIAdapter.adapter
              Example.ready Example.ready _ Example.no_args Example.ready
              (entered Example.no_args Example.ready) Example.response
              {| cost := 1.0437;
                 metadata := {| input_tokens := 1000; output_tokens := 500;
                                um_model := "gpt-4o" |} |}
              eq_refl eq_refl eq_refl eq_refl) as (w' & Hcall & Hcfg & Husage).
  exists w'. split; [exact Hcall|]. exact (Husage eq_refl).
Defined.

(** C3. When the adapter's [get_usage_and_cost] raises, whatever the
    exception, the wrapped method does not raise: it returns the response of
    the underlying call, and the configuration, [current_usage] included, is
    as the underlying call left it. *)
Theorem adapter_failure_is_contained
    (client : Client) (adapter : Adapter) (w0 w1 : World) (wrapped : Client)
    (a : call_args) (w wr : World) (response : ChatCompletion) (e : exn) :
  wrap client adapter w0 = (Ok wrapped, w1) ->
  Py.ge (current_usage (config w)) (monthly_budget (config w)) = false ->
  chat_completions_create client a (entered a w) = (Ok response, wr) ->
  get_usage_and_cost response = Raise e ->
  exists w',
    chat_completions_create wrapped a w = (Ok response, w')
    /\ config w' = config wr
    /\ current_usage (config w') = current_usage (config wr).
Proof.
  intros Hwrap Hgate Horig Hmeter.
  apply wrap_installs_wrapper in Hwrap as [-> _].
  erewrite wrapper_meter_failed by eassumption.
  eexists. split; [reflexivity|]. split; reflexivity.
Qed.

Lemma adapter_failure_is_contained_witness :
  exists w',
    chat_completions_create
      {| chat_completions_create :=
           _sentinel_wrapper (chat_completions_create Example.client) BaseAdapter.adapter |}
      Example.no_args Example.ready
    = (Ok Example.response, w')
    /\ config w' = config Example.ready
    /\ current_usage (config w') = 1.5%float.
Proof.
  apply (adapter_failure_is_contained Example.client BaseAdapter.adapter
           Example.ready Example.ready _ Example.no_args Example.ready
           (entered Example.no_args Example.ready) Example.response
           (NotImplementedError
              [Lit "Each adapter must implement the 'get_usage_and_cost' method."])
           eq_refl eq_refl eq_refl eq_refl).
Defined.

(** C4 (the code departs from the claim). An [init] whose key is well formed
    stores the key before it verifies it; when the verification then fails,
    [init] raises, no [init] has completed, and yet [wrap] finds a key and
    returns a wrapped client instead of raising. *)
Theorem wrap_passes_after_failed_init :
  let attempts := [(NoResponse [Lit "Connection refused"], Example.key)] in
  (exists msg, fst (init (NoResponse [Lit "Connection refused"]) Example.key initial_world)
               = Raise (RuntimeError msg))
  /\ api_key (config (run_inits attempts initial_world)) = Some Example.key
  /\ project_id (config (run_inits attempts initial_world)) = None
  /\ exists wrapped,
       fst (wrap Example.client OpenAIAdapter.adapter (run_inits attempts initial_world))
       = Ok wrapped.
Proof.
  simpl. split; [eexists; reflexivity|].
  split; [reflexivity|]. split; [reflexivity|].
  eexists. reflexivity.
Qed.

(** C5. For a model of the pricing table the adapter's cost is the formula
    of the specification evaluated in binary64 arithmetic with the model's
    two prices and the rate 83.50, rounded to 4 places once, at the end.  For
    1000 input and 500 output tokens of "gpt-4o" (prices 5.00 and 15.00) it
    is [((1000/1e6*5.00)+(500/1e6*15.00))*83.50] rounded to 4 places, which
    is the float 1.0437.  The cost is a function of the token counts and the
    model name. *)
Theorem cost_is_the_rounded_formula :
  (forall (input_tokens output_tokens : Z) (model_name : string)
          (p : OpenAIAdapter.pricing),
      OpenAIAdapter.MODEL_PRICING !! model_name = Some p ->
      OpenAIAdapter._calculate_openai_cost input_tokens output_tokens model_name
      = spec_cost input_tokens output_tokens
          (OpenAIAdapter.input p) (OpenAIAdapter.output p))
  /\ OpenAIAdapter.MODEL_PRICING !! "gpt-4o"
     = Some {| OpenAIAdapter.input := 5.00; OpenAIAdapter.output := 15.00 |}
  /\ OpenAIAdapter._calculate_openai_cost 1000 500 "gpt-4o"
     = Ok (Py.round4 (((1000 / 1000000 * 5.00) + (500 / 1000000 * 15.00)) * 83.50)%float)
  /\ OpenAIAdapter._calculate_openai_cost 1000 500 "gpt-4o" = Ok 1.0437%float
  /\ (forall (input_tokens output_tokens : Z) (model_name : string) (c1 c2 : result float),
        OpenAIAdapter._calculate_openai_cost input_tokens output_tokens model_name = c1 ->
        OpenAIAdapter._calculate_openai_cost input_tokens output_tokens model_name = c2 ->
        c1 = c2).
Proof.
  split; [|split; [|split; [|split]]].
  - intros i o m p Hp.
    unfold OpenAIAdapter._calculate_openai_cost, spec_cost. rewrite Hp. simpl.
    destruct (Py.int_truediv i 1000000); [|reflexivity].
    destruct (Py.int_truediv o 1000000); reflexivity.
  - reflexivity.
  - vm_compute. reflexivity.
  - vm_compute. reflexivity.
  - intros i o m c1 c2 <- <-. reflexivity.
Qed.

Lemma cost_is_the_rounded_formula_witness :
  OpenAIAdapter._calculate_openai_cost 1000 500 "gpt-4o" = spec_cost 1000 500 5.00 15.00.
Proof.
  exact (proj1 cost_is_the_rounded_formula 1000 500 "gpt-4o"
           {| OpenAIAdapter.input := 5.00; OpenAIAdapter.output := 15.00 |} eq_refl).
Defined.

(** C6, as stated, fails: a token count is a Python int, and for a count so
    large that its quotient by one million is beyond the largest float the
    division raises [OverflowError], whatever the model. *)
Lemma unknown_model_can_raise :
  OpenAIAdapter.MODEL_PRICING !! "gpt-5" = None
  /\ OpenAIAdapter.get_usage_and_cost
       {| usage := {| prompt_tokens := 10 ^ 400; completion_tokens := 500 |};
          model := "gpt-5"; content := "" |}
     = Raise (OverflowError [Lit "integer division result too large for a float"]).
Proof. split; [reflexivity|]. vm_compute. reflexivity. Qed.

(** C6, amended. For a response whose model name is not a key of the
    pricing table and whose token counts, divided by one million, are within
    the range of floats, [get_usage_and_cost] does not raise and returns a
    cost equal to 0.0; every token count below [2^1000] in absolute value is
    within that range. *)
Theorem unknown_model_costs_zero (response : ChatCompletion) :
  OpenAIAdapter.MODEL_PRICING !! model response = None ->
  (forall qi qo : float,
      Py.int_truediv (prompt_tokens (usage response)) 1000000 = Ok qi ->
      Py.int_truediv (completion_tokens (usage response)) 1000000 = Ok qo ->
      exists usage_data,
        OpenAIAdapter.get_usage_and_cost response = Ok usage_data
        /\ (cost usage_data =? 0)%float = true)
  /\ (Z.abs (prompt_tokens (usage response)) < 2 ^ 1000 ->
      Z.abs (completion_tokens (usage response)) < 2 ^ 1000 ->
      exists usage_data,
        OpenAIAdapter.get_usage_and_cost response = Ok usage_data
        /\ (cost usage_data =? 0)%float = true).
Proof.
  intros Hm.
  assert (Hexact : forall qi qo : float,
             Py.int_truediv (prompt_tokens (usage response)) 1000000 = Ok qi ->
             Py.int_truediv (completion_tokens (usage response)) 1000000 = Ok qo ->
             exists usage_data,
               OpenAIAdapter.get_usage_and_cost response = Ok usage_data
               /\ (cost usage_data =? 0)%float = true).
  { intros qi qo Hi Ho. unfold OpenAIAdapter.get_usage_and_cost.
    destruct (calculate_cost_unknown_model _ _ _ qi qo Hm Hi Ho) as (c & -> & Hc).
    simpl. eexists. split; [reflexivity|]. exact Hc. }
  split; [exact Hexact|].
  intros Hi Ho.
  destruct (int_truediv_million_small _ Hi) as [qi Ei].
  destruct (int_truediv_million_small _ Ho) as [qo Eo].
  exact (Hexact qi qo Ei Eo).
Qed.

Lemma unknown_model_costs_zero_witness :
  exists usage_data,
    OpenAIAdapter.get_usage_and_cost
      {| usage := {| prompt_tokens := 1000; completion_tokens := 500 |};
         model := "gpt-5"; content := "" |} = Ok usage_data
    /\ (cost usage_data =? 0)%float = true.
Proof.
  apply (proj2 (unknown_model_costs_zero
                  {| usage := {| prompt_tokens := 1000; completion_tokens := 500 |};
                     model := "gpt-5"; content := "" |} eq_refl)).
  - vm_compute. reflexivity.
  - vm_compute. reflexivity.
Defined.

(** C7. With an empty key, or a key that does not start with the credential
    prefix, [init] raises the [ValueError] of the format check and changes
    nothing: in particular no HTTP request is added to the log. *)
Theorem init_rejects_a_malformed_key (net : http_outcome) (api_key : string) (w : World) :
  api_key = "" \/ String.prefix "api-sentinel_pk_" api_key = false ->
  init net api_key w
    = (Raise (ValueError
                [Lit "A valid Sentinel API key (api-sentinel_pk_...) is required."]), w)
  /\ http_requests (log (snd (init net api_key w))) = http_requests (log w).
Proof.
  intros H. apply key_format_bad in H.
  rewrite init_bad_key by assumption. split; reflexivity.
Qed.

Lemma init_rejects_a_malformed_key_witness :
  init Example.verified "sk-live-1234" initial_world
    = (Raise (ValueError
                [Lit "A valid Sentinel API key (api-sentinel_pk_...) is required."]),
       initial_world)
  /\ http_requests (log (snd (init Example.verified "sk-live-1234" initial_world)))
     = http_requests (log initial_world).
Proof.
  apply (init_rejects_a_malformed_key Example.verified "sk-live-1234" initial_world).
  right. reflexivity.
Defined.

(** C8, as stated, fails: [raise_for_status] raises for 4xx and 5xx statuses
    only, so a response with another status outside 2xx, here 300, and a
    well-formed body is taken as a success. *)
Lemma init_accepts_status_300 :
  let r := {| status_code := 300;
              json_body := Some {| body_project_id := Some "proj-1";
                                   body_monthly_budget := Some 100%float;
                                   body_current_usage := Some 1.5%float |} |} in
  (status_code r <? 200) || (300 <=? status_code r) = true
  /\ status_code r <> 401
  /\ fst (init (Responded r) Example.key initial_world) = Ok tt
  /\ monthly_budget (config (snd (init (Responded r) Example.key initial_world))) = 100%float.
Proof. simpl. repeat split; try reflexivity. discriminate. Qed.

(** C8, amended. For a key that passes the format check: a 401 response
    makes [init] raise the [ValueError] that tells the user to check the key;
    any other 4xx or 5xx response makes it raise the [RuntimeError] that
    reports the status; no response at all makes it raise the [RuntimeError]
    that reports the network error; and a response whose status is neither
    4xx nor 5xx (every 2xx one is such) and whose body carries [project_id],
    [monthly_budget] and [current_usage] makes it write the three into the
    configuration, beside the key, and return. *)
Theorem init_outcomes (api_key : string) (w : World) :
  key_format_ok api_key = true ->
  (forall r, status_code r = 401 ->
     init (Responded r) api_key w
     = (Raise (ValueError
                 [Lit "Invalid Sentinel API key. Please check your key on the dashboard."]),
        verify_sent api_key w))
  /\ (forall r, 400 <= status_code r < 600 -> status_code r <> 401 ->
        init (Responded r) api_key w
        = (Raise (RuntimeError
                    [Lit "[API - SENTINEL] Could not connect to backend. Status: ";
                     FmtInt (status_code r)]),
           verify_sent api_key w))
  /\ (forall why,
        init (NoResponse why) api_key w
        = (Raise (RuntimeError
                    (Lit "[API - SENTINEL] Could not connect to backend. Network error: "
                     :: why)),
           verify_sent api_key w))
  /\ (forall r p b u,
        ~ (400 <= status_code r < 600) ->
        json_body r = Some {| body_project_id := Some p;
                              body_monthly_budget := Some b;
                              body_current_usage := Some u |} ->
        exists w',
          init (Responded r) api_key w = (Ok tt, w')
          /\ config w' = {| api_key := Some api_key;
                            backend_url := backend_url (config w);
                            project_id := Some p;
                            monthly_budget := b;
                            current_usage := u |})
  /\ (forall r, 200 <= status_code r < 300 -> ~ (400 <= status_code r < 600)).
Proof.
  intros Hkey. repeat split; try lia.
  - intros r H401. rewrite init_verify by assumption. rewrite H401. reflexivity.
  - intros r Hrange Hne. rewrite init_verify by assumption.
    replace ((400 <=? status_code r) && (status_code r <? 600)) with true by lia.
    replace (status_code r =? 401) with false by lia. reflexivity.
  - intros why. rewrite init_verify by assumption. reflexivity.
  - intros r p b u Hrange Hbody. rewrite init_verify by assumption.
    replace ((400 <=? status_code r) && (status_code r <? 600)) with false by lia.
    rewrite Hbody. simpl. eexists. split; reflexivity.
Qed.

Lemma init_outcomes_witness :
  init (Responded {| status_code := 401; json_body := None |}) Example.key initial_world
  = (Raise (ValueError
              [Lit "Invalid Sentinel API key. Please check your key on the dashboard."]),
     verify_sent Example.key initial_world).
Proof.
  exact (proj1 (init_outcomes Example.key initial_world eq_refl)
           {| status_code := 401; json_body := None |} eq_refl).
Defined.

(** C9. When the key passes the format check and the verify step then fails
    (an HTTP error status, no response, or a body that is not JSON), [init]
    raises, and the configuration it leaves has the new key in [api_key]
    while [project_id], [monthly_budget] and [current_usage] (and the backend
    URL) are as before. *)
Theorem init_failure_keeps_the_new_key (net : http_outcome) (api_key : string) (w : World) :
  key_format_ok api_key = true ->
  verify_fails net = true ->
  exists e w',
    init net api_key w = (Raise e, w')
    /\ Sentinel.api_key (config w') = Some api_key
    /\ project_id (config w') = project_id (config w)
    /\ monthly_budget (config w') = monthly_budget (config w)
    /\ current_usage (config w') = current_usage (config w)
    /\ backend_url (config w') = backend_url (config w).
Proof.
  intros Hkey Hfail. rewrite init_verify by assumption.
  destruct net as [why|r]; simpl in Hfail.
  - do 2 eexists. split; [reflexivity|]. repeat split.
  - destruct ((400 <=? status_code r) && (status_code r <? 600)).
    + destruct (status_code r =? 401);
        do 2 eexists; (split; [reflexivity|]); repeat split.
    + destruct (json_body r); [discriminate|].
      do 2 eexists. split; [reflexivity|]. repeat split.
Qed.

Lemma init_failure_keeps_the_new_key_witness :
  exists e w',
    init (Responded {| status_code := 503; json_body := None |}) Example.key Example.ready
    = (Raise e, w')
    /\ Sentinel.api_key (config w') = Some Example.key
    /\ project_id (config w') = Some "proj-1"
    /\ monthly_budget (config w') = 100%float
    /\ current_usage (config w') = 1.5%float
    /\ backend_url (config w') = "http://127.0.0.1:8000".
Proof.
  apply (init_failure_keeps_the_new_key
           (Responded {| status_code := 503; json_body := None |})
           Example.key Example.ready eq_refl eq_refl).
Defined.

(** C10. For a response with non-negative token counts the cost the OpenAI
    adapter computes is non-negative.  Hence, for a client that reports such
    counts and leaves the SDK's configuration alone, no sequence of
    invocations of the wrapped method lowers [current_usage]: the final value
    is never below the initial one, and for an initial value that is a number
    above minus infinity the initial value is at most the final one. *)
Theorem usage_is_never_lowered
    (original_method : call_args -> M ChatCompletion)
    (calls : list call_args) (w : World) :
  (forall a w0, config (snd (original_method a w0)) = config w0) ->
  (forall a w0 response w1,
      original_method a w0 = (Ok response, w1) ->
      0 <= prompt_tokens (usage response) /\ 0 <= completion_tokens (usage response)) ->
  let w' := run_calls (_sentinel_wrapper original_method OpenAIAdapter.adapter) calls w in
  (forall response usage_data,
      0 <= prompt_tokens (usage response) ->
      0 <= completion_tokens (usage response) ->
      OpenAIAdapter.get_usage_and_cost response = Ok usage_data ->
      (0 <=? cost usage_data)%float = true)
  /\ (current_usage (config w') <? current_usage (config w))%float = false
  /\ ((neg_infinity <? current_usage (config w))%float = true ->
      (current_usage (config w) <=? current_usage (config w'))%float = true).
Proof.
  intros Hframe Htokens w'. split; [|split].
  - intros response usage_data. apply get_usage_and_cost_nonneg.
  - apply not_lowered_ltb. apply run_calls_not_lowered; assumption.
  - apply run_calls_leb; assumption.
Qed.

Lemma usage_is_never_lowered_witness :
  let w' := run_calls
              (_sentinel_wrapper (chat_completions_create Example.client)
                 OpenAIAdapter.adapter)
              [Example.no_args; Example.no_args] Example.ready in
  (current_usage (config w') <? current_usage (config Example.ready))%float = false
  /\ (current_usage (config Example.ready) <=? current_usage (config w'))%float = true.
Proof.
  destruct (usage_is_never_lowered (chat_completions_create Example.client)
              [Example.no_args; Example.no_args] Example.ready) as (_ & Hlt & Hle).
  - intros a w0. reflexivity.
  - intros a w0 response w1 H. inversion H. simpl. lia.
  - split; [exact Hlt|]. apply Hle. reflexivity.
Defined.

(** ** Further properties of the interceptor *)

Lemma run_inits_malformed (attempts : list (http_outcome * string)) (w : World) :
  (forall net api_key, In (net, api_key) attempts -> key_format_ok api_key = false) ->
  run_inits attempts w = w.
Proof.
  revert w. induction attempts as [|[net api_key] rest IH]; intros w Hall; simpl.
  - reflexivity.
  - rewrite init_bad_key by (apply (Hall net); left; reflexivity).
    simpl. apply IH. intros net' key' Hin. apply (Hall net'). right. exact Hin.
Qed.

(** X1. An error raised by the underlying client passes through the wrapped
    method unchanged: the same exception is raised, and the world is the one
    the client left (no cost is added and no report thread is started). *)
Theorem client_error_passes_through
    (client : Client) (adapter : Adapter) (w0 w1 : World) (wrapped : Client)
    (a : call_args) (w wr : World) (e : exn) :
  wrap client adapter w0 = (Ok wrapped, w1) ->
  Py.ge (current_usage (config w)) (monthly_budget (config w)) = false ->
  chat_completions_create client a (entered a w) = (Raise e, wr) ->
  chat_completions_create wrapped a w = (Raise e, wr).
Proof.
  intros Hwrap Hgate Horig.
  apply wrap_installs_wrapper in Hwrap as [-> _].
  apply wrapper_original_raised; assumption.
Qed.

Lemma client_error_passes_through_witness :
  chat_completions_create
    {| chat_completions_create :=
         _sentinel_wrapper (chat_completions_create Example.failing_client)
           OpenAIAdapter.adapter |}
    Example.no_args Example.ready
  = (Raise (ClientError [Lit "rate limit reached"]),
     entered Example.no_args Example.ready).
Proof.
  apply (client_error_passes_through Example.failing_client OpenAIAdapter.adapter
           Example.ready Example.ready _ Example.no_args Example.ready
           (entered Example.no_args Example.ready)
           (ClientError [Lit "rate limit reached"]) eq_refl eq_refl eq_refl).
Defined.

(** X2. As long as no key is stored, [wrap] raises the "not initialized"
    [RuntimeError] and changes nothing; this is so at process start and
    after any sequence of [init] attempts whose keys all fail the format
    check. *)
Theorem wrap_needs_a_stored_key
    (attempts : list (http_outcome * string)) (client : Client) (adapter : Adapter)
    (w : World) :
  truthy_opt (api_key (config w)) = false ->
  (forall net api_key, In (net, api_key) attempts -> key_format_ok api_key = false) ->
  wrap client adapter (run_inits attempts w)
  = (Raise (RuntimeError
              [Lit "Sentinel SDK has not been initialized. Please call sentinel.init() first."]),
     w).
Proof.
  intros Hkey Hall. rewrite run_inits_malformed by assumption.
  unfold wrap, mbind, M_bind, get_config. rewrite Hkey. reflexivity.
Qed.

Lemma wrap_needs_a_stored_key_witness :
  wrap Example.client OpenAIAdapter.adapter
    (run_inits [(Example.verified, "sk-live-1234")] initial_world)
  = (Raise (RuntimeError
              [Lit "Sentinel SDK has not been initialized. Please call sentinel.init() first."]),
     initial_world).
Proof.
  apply (wrap_needs_a_stored_key [(Example.verified, "sk-live-1234")]
           Example.client OpenAIAdapter.adapter initial_world eq_refl).
  intros net api_key [H|[]]. inversion H. reflexivity.
Defined.

(** X3. After an [init] that succeeds, [wrap] returns a client whose
    completion method is the wrapper around the client's original method,
    and leaves the state as [init] set it. *)
Theorem wrap_after_successful_init
    (client : Client) (adapter : Adapter) (net : http_outcome) (api_key : string)
    (w w1 : World) :
  init net api_key w = (Ok tt, w1) ->
  wrap client adapter w1
  = (Ok {| chat_completions_create :=
             _sentinel_wrapper (chat_completions_create client) adapter |}, w1).
Proof.
  intros Hinit.
  destruct (key_format_ok api_key) eqn:Hkey.
  - assert (Hstored : Sentinel.api_key (config w1) = Some api_key).
    { rewrite init_verify in Hinit by assumption.
      destruct net as [why|r]; [discriminate|].
      destruct ((400 <=? status_code r) && (status_code r <? 600)).
      - destruct (status_code r =? 401); discriminate.
      - destruct (json_body r) as [data|]; [|discriminate].
        destruct (body_project_id data), (body_monthly_budget data),
          (body_current_usage data); try discriminate.
        inversion Hinit. reflexivity. }
    unfold wrap, mbind, M_bind, get_config. rewrite Hstored.
    unfold key_format_ok in Hkey. apply andb_true_iff in Hkey as [Htruthy _].
    simpl. rewrite Htruthy. reflexivity.
  - rewrite init_bad_key in Hinit by assumption. discriminate.
Qed.

Lemma wrap_after_successful_init_witness :
  wrap Example.client OpenAIAdapter.adapter Example.ready
  = (Ok {| chat_completions_create :=
             _sentinel_wrapper (chat_completions_create Example.client)
               OpenAIAdapter.adapter |}, Example.ready).
Proof.
  exact (wrap_after_successful_init Example.client OpenAIAdapter.adapter
           Example.verified Example.key initial_world Example.ready eq_refl).
Defined.

(** ** The usage reporter *)

Lemma report_trace (net : http_outcome) (c : Config) (usage_data : usage_record)
    (t : list Reporter.report_event) :
  Reporter._report_usage_to_backend net c usage_data t
  = (Ok tt,
     ((t ++ [Reporter.HttpPost (backend_url c +:+ "/v1/usage") usage_data
              [("X-Sentinel-Key", api_key c)] 5])
     ++ match net with
        | NoResponse why =>
            [Reporter.Printed
               (Lit "SENTINEL WARNING: Could not report usage to backend. Error: " :: why)]
        | Responded r =>
            if (400 <=? status_code r) && (status_code r <? 600)
            then [Reporter.Printed
                    [Lit "SENTINEL WARNING: Could not report usage to backend. Error: ";
                     FmtInt (status_code r); Lit " Error"]]
            else []
        end)%list).
Proof.
  unfold Reporter._report_usage_to_backend, Reporter.try_except_RequestException,
    Reporter.requests_post, Reporter.raise_for_status, Reporter.print, Reporter.emit,
    Reporter.raise, mbind, Reporter.T_bind, mret, Reporter.T_ret.
  destruct net as [why|r]; simpl.
  - reflexivity.
  - destruct ((400 <=? status_code r) && (status_code r <? 600)); simpl.
    + reflexivity.
    + rewrite app_nil_r. reflexivity.
Qed.

(** X4. The usage reporter never raises, whatever the network does: it
    sends one POST to [{backend_url}/v1/usage] carrying the usage record, the
    stored key in the [X-Sentinel-Key] header and a timeout of 5, and it
    prints one warning exactly when the report fails (no response, or a 4xx
    or 5xx status). *)
Theorem report_never_raises
    (net : http_outcome) (c : Config) (usage_data : usage_record)
    (t : list Reporter.report_event) :
  fst (Reporter._report_usage_to_backend net c usage_data t) = Ok tt
  /\ exists detail,
       snd (Reporter._report_usage_to_backend net c usage_data t)
       = ((t ++ [Reporter.HttpPost (backend_url c +:+ "/v1/usage") usage_data
                   [("X-Sentinel-Key", api_key c)] 5])
          ++ (if Reporter.report_fails net
              then [Reporter.Printed
                      (Lit "SENTINEL WARNING: Could not report usage to backend. Error: "
                       :: detail)]
              else []))%list.
Proof.
  rewrite report_trace. split; [reflexivity|].
  destruct net as [why|r]; simpl.
  - exists why. reflexivity.
  - destruct ((400 <=? status_code r) && (status_code r <? 600)).
    + eexists. reflexivity.
    + exists []. reflexivity.
Qed.

(** ** The gate at its edges *)

Lemma ge_nan_l (x y : float) : is_nan x = true -> Py.ge x y = false.
Proof.
  unfold Py.ge. rewrite is_nan_spec, leb_spec. unfold SFleb.
  destruct (Prim2SF x), (Prim2SF y); simpl; congruence.
Qed.

Lemma ge_nan_r (x y : float) : is_nan y = true -> Py.ge x y = false.
Proof.
  unfold Py.ge. rewrite is_nan_spec, leb_spec. unfold SFleb.
  destruct (Prim2SF x), (Prim2SF y); simpl; congruence.
Qed.

Section Gate.

Variable original_method : call_args -> M ChatCompletion.
Variable adapter : Adapter.

Lemma wrapper_gate_open_returns (a : call_args) (w wr : World) (response : ChatCompletion) :
  Py.ge (current_usage (config w)) (monthly_budget (config w)) = false ->
  original_method a (entered a w) = (Ok response, wr) ->
  exists w', _sentinel_wrapper original_method adapter a w = (Ok response, w').
Proof.
  intros Hgate Horig.
  destruct (get_usage_and_cost response) as [usage_data|e] eqn:Hmeter.
  - erewrite wrapper_metered by eassumption. eexists. reflexivity.
  - erewrite wrapper_meter_failed by eassumption. eexists. reflexivity.
Qed.

(** X5. A budget or a usage that is NaN disables the gate: the comparison
    [current_usage >= monthly_budget] is false, so a call whose underlying
    call returns a response is never blocked and returns that response. *)
Theorem nan_disables_the_gate (a : call_args) (w wr : World) (response : ChatCompletion) :
  is_nan (monthly_budget (config w)) = true \/ is_nan (current_usage (config w)) = true ->
  original_method a (entered a w) = (Ok response, wr) ->
  exists w', _sentinel_wrapper original_method adapter a w = (Ok response, w').
Proof.
  intros Hnan Horig. apply wrapper_gate_open_returns with (wr := wr); [|assumption].
  destruct Hnan as [H|H]; [apply ge_nan_r | apply ge_nan_l]; assumption.
Qed.

(** X6. The gate blocks at equality: when [current_usage] equals
    [monthly_budget] (and is a number), the call raises
    [BudgetExceededError] and nothing else happens. *)
Theorem exact_budget_blocks (a : call_args) (w : World) :
  current_usage (config w) = monthly_budget (config w) ->
  is_nan (monthly_budget (config w)) = false ->
  _sentinel_wrapper original_method adapter a w
  = (Raise (BudgetExceededError
              [Lit "Project has exceeded its budget of ";
               FmtFloat (monthly_budget (config w)); Lit "."]), w).
Proof.
  intros Heq Hnum. apply wrapper_gate_closed.
  unfold Py.ge. rewrite Heq. apply leb_refl. assumption.
Qed.

(** X7. Once the gate is closed it stays closed: any sequence of calls made
    with [current_usage >= monthly_budget] leaves the state and the log as
    they were (so the original method is never reached), and the next call
    is blocked again. *)
Theorem exhausted_budget_stays_exhausted (calls : list call_args) (a : call_args) (w : World) :
  Py.ge (current_usage (config w)) (monthly_budget (config w)) = true ->
  run_calls (_sentinel_wrapper original_method adapter) calls w = w
  /\ _sentinel_wrapper original_method adapter a
       (run_calls (_sentinel_wrapper original_method adapter) calls w)
     = (Raise (BudgetExceededError
                 [Lit "Project has exceeded its budget of ";
                  FmtFloat (monthly_budget (config w)); Lit "."]), w).
Proof.
  intros Hgate.
  assert (Hrun : run_calls (_sentinel_wrapper original_method adapter) calls w = w).
  { induction calls as [|a' calls IH]; simpl; [reflexivity|].
    rewrite wrapper_gate_closed by assumption. simpl. exact IH. }
  split; [exact Hrun|].
  rewrite Hrun. apply wrapper_gate_closed. assumption.
Qed.

End Gate.

Lemma nan_disables_the_gate_witness :
  exists w',
    _sentinel_wrapper (chat_completions_create Example.client) OpenAIAdapter.adapter
      Example.no_args
      {| config := set_monthly_budget nan (config Example.exhausted);
         log := log Example.exhausted |}
    = (Ok Example.response, w').
Proof.
  apply (nan_disables_the_gate (chat_completions_create Example.client)
           OpenAIAdapter.adapter Example.no_args
           {| config := set_monthly_budget nan (config Example.exhausted);
              log := log Example.exhausted |}
           (entered Example.no_args
              {| config := set_monthly_budget nan (config Example.exhausted);
                 log := log Example.exhausted |})
           Example.response).
  - left. reflexivity.
  - reflexivity.
Defined.

Lemma exact_budget_blocks_witness :
  _sentinel_wrapper (chat_completions_create Example.client) OpenAIAdapter.adapter
    Example.no_args Example.exhausted
  = (Raise (BudgetExceededError
              [Lit "Project has exceeded its budget of "; FmtFloat 100; Lit "."]),
     Example.exhausted).
Proof.
  apply (exact_budget_blocks (chat_completions_create Example.client)
           OpenAIAdapter.adapter Example.no_args Example.exhausted eq_refl eq_refl).
Defined.

Lemma exhausted_budget_stays_exhausted_witness :
  run_calls (_sentinel_wrapper (chat_completions_create Example.client)
               OpenAIAdapter.adapter)
    [Example.no_args; Example.no_args; Example.no_args] Example.exhausted
  = Example.exhausted.
Proof.
  exact (proj1 (exhausted_budget_stays_exhausted
                  (chat_completions_create Example.client) OpenAIAdapter.adapter
                  [Example.no_args; Example.no_args; Example.no_args]
                  Example.no_args Example.exhausted eq_refl)).
Defined.

(** X8. Wrapping a client twice meters every call twice: when the gate is
    open, one call of the doubly wrapped method reaches the client's method
    once, returns its response, adds the adapter's cost to [current_usage]
    two times and starts two report threads. *)
Theorem double_wrap_counts_twice
    (client : Client) (adapter : Adapter) (w0 w0' w1 w1' : World) (once twice : Client)
    (a : call_args) (w wr : World) (response : ChatCompletion) (usage_data : usage_record) :
  wrap client adapter w0 = (Ok once, w0') ->
  wrap once adapter w1 = (Ok twice, w1') ->
  Py.ge (current_usage (config w)) (monthly_budget (config w)) = false ->
  chat_completions_create client a (entered a (entered a w)) = (Ok response, wr) ->
  get_usage_and_cost response = Ok usage_data ->
  exists w',
    chat_completions_create twice a w = (Ok response, w')
    /\ current_usage (config w')
       = ((current_usage (config wr) + cost usage_data) + cost usage_data)%float
    /\ log w' = ((log wr ++ [ThreadStarted usage_data]) ++ [ThreadStarted usage_data])%list.
Proof.
  intros Hw1 Hw2 Hgate Horig Hmeter.
  apply wrap_installs_wrapper in Hw1 as [E1 _].
  apply wrap_installs_wrapper in Hw2 as [E2 _].
  rewrite E2, E1.
  assert (Hinner :
            _sentinel_wrapper (chat_completions_create client) adapter a (entered a w)
            = (Ok response,
               {| config := set_current_usage
                              (current_usage (config wr) + cost usage_data)%float (config wr);
                  log := log wr ++ [ThreadStarted usage_data] |})).
  { apply wrapper_metered; assumption. }
  erewrite (wrapper_metered _ adapter a w) by eassumption.
  eexists. split; [reflexivity|]. split; reflexivity.
Qed.

Lemma double_wrap_counts_twice_witness :
  exists w',
    _sentinel_wrapper
      (_sentinel_wrapper (chat_completions_create Example.client) OpenAIAdapter.adapter)
      OpenAIAdapter.adapter Example.no_args Example.ready
    = (Ok Example.response, w')
    /\ current_usage (config w') = ((1.5 + 1.0437) + 1.0437)%float
    /\ original_calls (log w') = 2%nat.
Proof.
  destruct (double_wrap_counts_twice Example.client OpenAIAdapter.adapter
              Example.ready Example.ready Example.ready Example.ready _ _
              Example.no_args Example.ready
              (entered Example.no_args (entered Example.no_args Example.ready))
              Example.response
              {| cost := 1.0437;
                 metadata := {| input_tokens := 1000; output_tokens := 500;
                                um_model := "gpt-4o" |} |}
              eq_refl eq_refl eq_refl eq_refl eq_refl) as (w' & Hcall & Husage & Hlog).
  exists w'. split; [exact Hcall|]. split; [exact Husage|].
  rewrite Hlog. reflexivity.
Defined.

(** ** More on the session initialiser *)

(** What [init] adds to the log after the request, if anything. *)
Lemma init_log (net : http_outcome) (api_key : string) (w : World) :
  key_format_ok api_key = true ->
  exists rest,
    log (snd (init net api_key w)) = (log (verify_sent api_key w) ++ rest)%list
    /\ http_requests rest = 0%nat.
Proof.
  intros Hkey. rewrite init_verify by assumption.
  destruct net as [why|r].
  - exists []. rewrite app_nil_r. split; reflexivity.
  - destruct ((400 <=? status_code r) && (status_code r <? 600)).
    + destruct (status_code r =? 401); exists []; rewrite app_nil_r; split; reflexivity.
    + destruct (json_body r) as [data|];
        [|exists []; rewrite app_nil_r; split; reflexivity].
      destruct (body_project_id data), (body_monthly_budget data), (body_current_usage data);
        try (exists []; rewrite app_nil_r; split; reflexivity).
      eexists. split; reflexivity.
Qed.

(** X9. An [init] whose key passes the format check sends exactly one HTTP
    request, whatever the outcome: a GET to [{backend_url}/keys/verify] with
    the key in the [X-Sentinel-Key] header and a timeout of 5. *)
Theorem init_sends_one_request (net : http_outcome) (api_key : string) (w : World) :
  key_format_ok api_key = true ->
  http_requests (log (snd (init net api_key w))) = S (http_requests (log w))
  /\ In (HttpGet (backend_url (config w) +:+ "/keys/verify")
           [("X-Sentinel-Key", api_key)] 5)
        (log (snd (init net api_key w))).
Proof.
  intros Hkey. destruct (init_log net api_key w Hkey) as (rest & -> & Hrest).
  unfold verify_sent. simpl log. split.
  - rewrite !http_requests_app, Hrest. simpl. lia.
  - apply in_or_app. left. apply in_or_app. right. left. reflexivity.
Qed.

Lemma init_sends_one_request_witness :
  http_requests (log (snd (init Example.verified Example.key initial_world))) = 1%nat
  /\ In (HttpGet "http://127.0.0.1:8000/keys/verify"
           [("X-Sentinel-Key", Example.key)] 5)
        (log (snd (init Example.verified Example.key initial_world))).
Proof.
  apply (init_sends_one_request Example.verified Example.key initial_world eq_refl).
Defined.

(** X10. A response body that lacks one of the three fields makes [init]
    raise the [KeyError] of the first missing field, untranslated; the
    fields read before it are already written into the configuration and
    the others keep their previous values. *)
Theorem init_missing_field (r : Response) (data : verify_body) (api_key : string) (w : World) :
  key_format_ok api_key = true ->
  (400 <=? status_code r) && (status_code r <? 600) = false ->
  json_body r = Some data ->
  (body_project_id data = None ->
     init (Responded r) api_key w = (Raise (KeyError "project_id"), verify_sent api_key w))
  /\ (forall p,
        body_project_id data = Some p -> body_monthly_budget data = None ->
        exists w',
          init (Responded r) api_key w = (Raise (KeyError "monthly_budget"), w')
          /\ project_id (config w') = Some p
          /\ monthly_budget (config w') = monthly_budget (config w)
          /\ current_usage (config w') = current_usage (config w))
  /\ (forall p b,
        body_project_id data = Some p -> body_monthly_budget data = Some b ->
        body_current_usage data = None ->
        exists w',
          init (Responded r) api_key w = (Raise (KeyError "current_usage"), w')
          /\ project_id (config w') = Some p
          /\ monthly_budget (config w') = b
          /\ current_usage (config w') = current_usage (config w)).
Proof.
  intros Hkey Hstatus Hbody.
  rewrite init_verify by assumption. rewrite Hstatus, Hbody.
  split; [|split].
  - intros ->. reflexivity.
  - intros p -> ->. eexists. split; [reflexivity|]. repeat split.
  - intros p b -> -> ->. eexists. split; [reflexivity|]. repeat split.
Qed.

Lemma init_missing_field_witness :
  exists w',
    init (Responded {| status_code := 200;
                       json_body := Some {| body_project_id := Some "proj-2";
                                            body_monthly_budget := None;
                                            body_current_usage := Some 7%float |} |})
      Example.key Example.ready
    = (Raise (KeyError "monthly_budget"), w')
    /\ project_id (config w') = Some "proj-2"
    /\ monthly_budget (config w') = 100%float
    /\ current_usage (config w') = 1.5%float.
Proof.
  apply (proj1 (proj2 (init_missing_field
           {| status_code := 200;
              json_body := Some {| body_project_id := Some "proj-2";
                                   body_monthly_budget := None;
                                   body_current_usage := Some 7%float |} |}
           _ Example.key Example.ready eq_refl eq_refl eq_refl)) "proj-2" eq_refl eq_refl).
Defined.

(** X11. A successful [init] overwrites the session: the configuration it
    leaves is made of its own key and response and of the backend URL only,
    so the key, project, budget and locally accumulated usage of an earlier
    session do not survive it. *)
Theorem init_overwrites_the_session
    (net : http_outcome) (api_key : string) (wa wa' wb : World) :
  init net api_key wa = (Ok tt, wa') ->
  backend_url (config wa) = backend_url (config wb) ->
  exists wb', init net api_key wb = (Ok tt, wb') /\ config wb' = config wa'.
Proof.
  intros Hinit Hurl.
  destruct (key_format_ok api_key) eqn:Hkey;
    [|rewrite init_bad_key in Hinit by assumption; discriminate].
  rewrite init_verify in Hinit by assumption. rewrite init_verify by assumption.
  destruct net as [why|r]; [discriminate|].
  destruct ((400 <=? status_code r) && (status_code r <? 600)).
  - destruct (status_code r =? 401); discriminate.
  - destruct (json_body r) as [data|]; [|discriminate].
    destruct (body_project_id data), (body_monthly_budget data), (body_current_usage data);
      try discriminate.
    inversion Hinit; subst wa'. eexists. split; [reflexivity|].
    simpl. unfold set_current_usage, set_monthly_budget, set_project_id, set_api_key.
    simpl. rewrite Hurl. reflexivity.
Qed.

Lemma init_overwrites_the_session_witness :
  exists wb',
    init Example.verified Example.key Example.exhausted = (Ok tt, wb')
    /\ config wb' = config Example.ready.
Proof.
  apply (init_overwrites_the_session Example.verified Example.key
           initial_world Example.ready Example.exhausted eq_refl eq_refl).
Defined.

Lemma failed_attempt_keeps_budget (net : http_outcome) (api_key : string) (w : World) :
  attempt_fails (net, api_key) = true ->
  monthly_budget (config (snd (init net api_key w))) = monthly_budget (config w)
  /\ current_usage (config (snd (init net api_key w))) = current_usage (config w).
Proof.
  unfold attempt_fails. simpl. intros Hfail.
  destruct (key_format_ok api_key) eqn:Hkey.
  - simpl in Hfail. rewrite init_verify by assumption.
    destruct net as [why|r]; simpl in Hfail; [split; reflexivity|].
    destruct ((400 <=? status_code r) && (status_code r <? 600)).
    + destruct (status_code r =? 401); split; reflexivity.
    + destruct (json_body r); [discriminate|]. split; reflexivity.
  - rewrite init_bad_key by assumption. split; reflexivity.
Qed.

Lemma failed_attempts_keep_budget (attempts : list (http_outcome * string)) (w : World) :
  (forall attempt, In attempt attempts -> attempt_fails attempt = true) ->
  monthly_budget (config (run_inits attempts w)) = monthly_budget (config w)
  /\ current_usage (config (run_inits attempts w)) = current_usage (config w).
Proof.
  revert w. induction attempts as [|[net api_key] rest IH]; intros w Hall; simpl.
  - split; reflexivity.
  - destruct (IH (snd (init net api_key w))) as [Hb Hu].
    { intros attempt Hin. apply Hall. right. exact Hin. }
    destruct (failed_attempt_keeps_budget net api_key w) as [Hb' Hu'].
    { apply Hall. left. reflexivity. }
    rewrite Hb, Hu, Hb', Hu'. split; reflexivity.
Qed.

(** X12. A process in which every [init] attempt has failed is closed to
    calls: the budget and the usage are still the initial 0, so whatever
    method was wrapped, a call of it raises [BudgetExceededError] with a
    budget of 0 and does not reach the original method. *)
Theorem failed_inits_leave_the_gate_closed
    (attempts : list (http_outcome * string))
    (original_method : call_args -> M ChatCompletion) (adapter : Adapter) (a : call_args) :
  (forall attempt, In attempt attempts -> attempt_fails attempt = true) ->
  _sentinel_wrapper original_method adapter a (run_inits attempts initial_world)
  = (Raise (BudgetExceededError
              [Lit "Project has exceeded its budget of "; FmtFloat 0; Lit "."]),
     run_inits attempts initial_world).
Proof.
  intros Hall.
  destruct (failed_attempts_keep_budget attempts initial_world Hall) as [Hb Hu].
  rewrite wrapper_gate_closed.
  - rewrite Hb. reflexivity.
  - rewrite Hb, Hu. reflexivity.
Qed.

Lemma failed_inits_leave_the_gate_closed_witness :
  _sentinel_wrapper (chat_completions_create Example.client) OpenAIAdapter.adapter
    Example.no_args
    (run_inits [(Example.verified, "sk-live-1234");
                (NoResponse [Lit "Connection refused"], Example.key)] initial_world)
  = (Raise (BudgetExceededError
              [Lit "Project has exceeded its budget of "; FmtFloat 0; Lit "."]),
     run_inits [(Example.verified, "sk-live-1234");
                (NoResponse [Lit "Connection refused"], Example.key)] initial_world).
Proof.
  apply (failed_inits_leave_the_gate_closed
           [(Example.verified, "sk-live-1234");
            (NoResponse [Lit "Connection refused"], Example.key)]).
  intros attempt [<-|[<-|[]]]; reflexivity.
Defined.

Section Frame.

Variable original_method : call_args -> M ChatCompletion.
Variable adapter : Adapter.

(** The client leaves the SDK's configuration alone. *)
Hypothesis client_frame :
  forall a w, config (snd (original_method a w)) = config w.

Lemma wrapper_step_session (a : call_args) (w : World) :
  session (config (snd (_sentinel_wrapper original_method adapter a w)))
  = session (config w).
Proof using client_frame.
  destruct (Py.ge (current_usage (config w)) (monthly_budget (config w))) eqn:Hgate.
  - rewrite wrapper_gate_closed by assumption. reflexivity.
  - pose proof (client_frame a (entered a w)) as Hframe.
    destruct (original_method a (entered a w)) as [[response|e] wr] eqn:Horig;
      simpl in Hframe.
    + destruct (get_usage_and_cost response) as [usage_data|e] eqn:Hmeter.
      * erewrite wrapper_metered by eassumption. simpl. rewrite <- Hframe. reflexivity.
      * erewrite wrapper_meter_failed by eassumption. simpl. rewrite Hframe. reflexivity.
    + erewrite wrapper_original_raised by eassumption. simpl. rewrite Hframe. reflexivity.
Qed.

End Frame.

(** X13. The interceptor writes nothing but [current_usage]: for a client
    that leaves the configuration alone and for any adapter, no sequence of
    calls of the wrapped method changes the key, the backend URL, the
    project or the monthly budget. *)
Theorem calls_change_only_the_usage
    (original_method : call_args -> M ChatCompletion) (adapter : Adapter)
    (calls : list call_args) (w : World) :
  (forall a w0, config (snd (original_method a w0)) = config w0) ->
  let w' := run_calls (_sentinel_wrapper original_method adapter) calls w in
  api_key (config w') = api_key (config w)
  /\ backend_url (config w') = backend_url (config w)
  /\ project_id (config w') = project_id (config w)
  /\ monthly_budget (config w') = monthly_budget (config w).
Proof.
  intros Hframe w'.
  assert (H : session (config w') = session (config w)).
  { subst w'. revert w. induction calls as [|a calls IH]; intros w; simpl.
    - reflexivity.
    - rewrite IH. apply wrapper_step_session. assumption. }
  unfold session in H. inversion H. repeat split; reflexivity.
Qed.

Lemma calls_change_only_the_usage_witness :
  let w' := run_calls
              (_sentinel_wrapper (chat_completions_create Example.client)
                 OpenAIAdapter.adapter)
              [Example.no_args; Example.no_args] Example.ready in
  api_key (config w') = Some Example.key
  /\ backend_url (config w') = "http://127.0.0.1:8000"
  /\ project_id (config w') = Some "proj-1"
  /\ monthly_budget (config w') = 100%float.
Proof.
  apply (calls_change_only_the_usage (chat_completions_create Example.client)
           OpenAIAdapter.adapter [Example.no_args; Example.no_args] Example.ready).
  intros a w0. reflexivity.
Defined.

(** ** More on the OpenAI adapter *)

(** X14. No tokens cost nothing: for zero input and zero output tokens the
    cost is 0.0, whatever the model name. *)
Theorem zero_tokens_cost_zero (model_name : string) :
  OpenAIAdapter._calculate_openai_cost 0 0 model_name = Ok 0%float.
Proof.
  unfold OpenAIAdapter._calculate_openai_cost.
  destruct (OpenAIAdapter.MODEL_PRICING !! model_name) as [p|] eqn:E.
  - apply MODEL_PRICING_lookup in E as [[_ ->]|[[_ ->]|[_ ->]]];
      vm_compute; reflexivity.
  - vm_compute. reflexivity.
Qed.



(** The key and the URL a successful [init] leaves. *)
Lemma init_ok_key_and_url (net : http_outcome) (api_key : string) (w w1 : World) :
  init net api_key w = (Ok tt, w1) ->
  Sentinel.api_key (config w1) = Some api_key
  /\ backend_url (config w1) = backend_url (config w).
Proof.
  intros Hinit.
  destruct (key_format_ok api_key) eqn:Hkey;
    [|rewrite init_bad_key in Hinit by assumption; discriminate].
  rewrite init_verify in Hinit by assumption.
  destruct net as [why|r]; [discriminate|].
  destruct ((400 <=? status_code r) && (status_code r <? 600)).
  - destruct (status_code r =? 401); discriminate.
  - destruct (json_body r) as [data|]; [|discriminate].
    destruct (body_project_id data), (body_monthly_budget data), (body_current_usage data);
      try discriminate.
    inversion Hinit. split; reflexivity.
Qed.

(** X16. From [init] to the report: after a successful [init] with a key, a
    metered call of the wrapped method starts one report thread with the
    adapter's usage record, and that thread, run on the configuration the
    call left, posts this very record to [{backend_url}/v1/usage] with the
    key of [init] in the [X-Sentinel-Key] header, whatever the network then
    does. *)
Theorem metered_call_reports_with_the_session_key
    (client : Client) (adapter : Adapter) (verify : http_outcome) (api_key : string)
    (w0 w1 wr : World) (a : call_args)
    (response : ChatCompletion) (usage_data : usage_record) :
  init verify api_key w0 = (Ok tt, w1) ->
  Py.ge (current_usage (config w1)) (monthly_budget (config w1)) = false ->
  chat_completions_create client a (entered a w1) = (Ok response, wr) ->
  config wr = config w1 ->
  get_usage_and_cost response = Ok usage_data ->
  exists w2,
    _sentinel_wrapper (chat_completions_create client) adapter a w1 = (Ok response, w2)
    /\ log w2 = (log wr ++ [ThreadStarted usage_data])%list
    /\ forall (net : http_outcome) (t : list Reporter.report_event),
         exists rest,
           snd (Reporter._report_usage_to_backend net (config w2) usage_data t)
           = ((t ++ [Reporter.HttpPost (backend_url (config w0) +:+ "/v1/usage")
                       usage_data [("X-Sentinel-Key", Some api_key)] 5]) ++ rest)%list.
Proof.
  intros Hinit Hgate Horig Hframe Hmeter.
  destruct (init_ok_key_and_url _ _ _ _ Hinit) as [Hkey Hurl].
  erewrite wrapper_metered by eassumption.
  eexists. split; [reflexivity|]. split; [reflexivity|].
  intros net t. rewrite report_trace. simpl snd. simpl config.
  unfold set_current_usage. simpl. rewrite Hframe, Hkey, Hurl.
  eexists. reflexivity.
Qed.

Lemma metered_call_reports_with_the_session_key_witness :
  exists w2,
    _sentinel_wrapper (chat_completions_create Example.client) OpenAIAdapter.adapter
      Example.no_args Example.ready = (Ok Example.response, w2)
    /\ exists rest,
         snd (Reporter._report_usage_to_backend (NoResponse [Lit "timed out"])
                (config w2)
                {| cost := 1.0437;
                   metadata := {| input_tokens := 1000; output_tokens := 500;
                                  um_model := "gpt-4o" |} |} [])
         = ([Reporter.HttpPost "http://127.0.0.1:8000/v1/usage"
               {| cost := 1.0437;
                  metadata := {| input_tokens := 1000; output_tokens := 500;
                                 um_model := "gpt-4o" |} |}
               [("X-Sentinel-Key", Some Example.key)] 5] ++ rest)%list.
Proof.
  destruct (metered_call_reports_with_the_session_key Example.client OpenAIAdapter.adapter
              Example.verified Example.key initial_world Example.ready
              (entered Example.no_args Example.ready) Example.no_args Example.response
              {| cost := 1.0437;
                 metadata := {| input_tokens := 1000; output_tokens := 500;
                                um_model := "gpt-4o" |} |}
              eq_refl eq_refl eq_refl eq_refl eq_refl) as (w2 & Hcall & _ & Hreport).
  exists w2. split; [exact Hcall|].
  exact (Hreport (NoResponse [Lit "timed out"]) []).
Defined.

(** ** The base adapter *)

Lemma base_adapter_step
    (original_method : call_args -> M ChatCompletion) (a : call_args) (w : World) :
  (forall a0 w0, config (snd (original_method a0 w0)) = config w0) ->
  config (snd (_sentinel_wrapper original_method BaseAdapter.adapter a w)) = config w.
Proof.
  intros Hframe.
  destruct (Py.ge (current_usage (config w)) (monthly_budget (config w))) eqn:Hgate.
  - rewrite wrapper_gate_closed by assumption. reflexivity.
  - pose proof (Hframe a (entered a w)) as Hwr.
    destruct (original_method a (entered a w)) as [[response|e] wr] eqn:Horig;
      simpl in Hwr.
    + erewrite wrapper_meter_failed by (try eassumption; reflexivity).
      simpl. exact Hwr.
    + erewrite wrapper_original_raised by eassumption. simpl. exact Hwr.
Qed.

(** X17. A client wrapped with the base adapter, whose [get_usage_and_cost]
    only raises [NotImplementedError], is never metered: for a client that
    leaves the configuration alone, no sequence of calls of the wrapped
    method changes the configuration, so [current_usage] stays where it was
    and a gate that is open stays open. *)
Theorem base_adapter_never_meters
    (original_method : call_args -> M ChatCompletion)
    (calls : list call_args) (w : World) :
  (forall a w0, config (snd (original_method a w0)) = config w0) ->
  config (run_calls (_sentinel_wrapper original_method BaseAdapter.adapter) calls w)
  = config w.
Proof.
  intros Hframe. revert w. induction calls as [|a calls IH]; intros w; simpl.
  - reflexivity.
  - rewrite IH. apply base_adapter_step. assumption.
Qed.

Lemma base_adapter_never_meters_witness :
  config (run_calls
            (_sentinel_wrapper (chat_completions_create Example.client) BaseAdapter.adapter)
            [Example.no_args; Example.no_args] Example.ready)
  = config Example.ready.
Proof.
  apply (base_adapter_never_meters (chat_completions_create Example.client)
           [Example.no_args; Example.no_args] Example.ready).
  intros a w0. reflexivity.
Defined.
